(** * pypmc: importance sampling for Population Monte Carlo

    A shallow embedding of [pypmc/pmc/importance_sampling.py]: the moment
    estimators, the plain [ImportanceSampler] and the deterministic-mixture
    sampler [DeterministicIS], together with the properties the
    specification states about them and further properties read off the
    code.

    Numbers.  The program computes with IEEE binary64 values, and so does
    the embedding: a float is a primitive 64-bit float, and [+], [-], [*]
    and [/] are the correctly rounded operations of the processor, signed
    zeros, infinities and [nan] included.  The exponential is not an
    operation of the processor: [math.exp] hands its argument to the
    [exp] of the C library and raises when the result overflows.  The C
    function is a parameter of the development, [math.exp] is written on
    top of it as CPython does.  The sums that numpy computes are
    parameters as well, since numpy chooses the order of the additions.

    State.  A sampler is a record; a method is a function from the state
    of [self] to the state it leaves and what it returned or raised.
    Drawing points is left to the proposal, which gets the state of the
    random number generator and hands the next one back. *)

From Stdlib Require Import String.
From Stdlib Require Import ZArith Lia Arith Bool List Permutation.
From Stdlib Require Uint63.
From Stdlib Require Import Floats.
Import ListNotations.

Set Implicit Arguments.
Set Warnings "-inexact-float".

(* ================================================================= *)
(** ** Floats *)

(** Conversion of a Python [int] to a float, as [int * float] and
    [array / int] perform it: the nearest double.  Every [int] converted
    below is a number of rows held in memory, far below [2^63], the range
    in which the primitive conversion is the one of Python. *)
Definition of_nat (n : nat) : float :=
  of_uint63 (Uint63.of_Z (Z.of_nat n)).

(** The function [exp] of the C library.  Its values are those of the
    library at hand; what is used of them is what C (Annex F) and the
    mathematical function promise of every implementation:
    [exp(-inf)] is [+0.], and no result is negative. *)
Class Libm : Type := {
  c_exp : float -> float;
  c_exp_neg_infinity : c_exp neg_infinity = 0%float;
  c_exp_not_negative : forall x, (c_exp x <? 0)%float = false
}.

(** The sums of numpy.  [a.sum()] adds the entries of a 1d array in an
    order numpy chooses (blocks, pairs, several accumulators): the result
    is the value of some tree of additions over the entries, and [0.] for
    an empty array. *)
Inductive summation : list float -> float -> Prop :=
| sum_one (x : float) : summation [x] x
| sum_split (a a1 a2 : list float) (s1 s2 : float) :
    Permutation a (a1 ++ a2) ->
    summation a1 s1 ->
    summation a2 s2 ->
    summation a (s1 + s2)%float.

Class Numpy : Type := {
  np_sum : list float -> float;               (* a.sum(), a of one axis *)
  np_sum_axis0 : list (list float) -> list float;   (* a.sum(axis=0) *)
  np_square : float -> float;                 (* x ** 2 *)
  np_sum_empty : np_sum [] = 0%float;
  np_sum_summation : forall a, a <> [] -> summation a (np_sum a)
}.

(* ================================================================= *)
(** ** Exceptions and the state monad of a method call

    A method runs on the object [self] and either returns or raises.  A
    Python exception does not roll anything back: whatever the method
    wrote before raising stays written, so the final state is part of the
    result in both cases. *)

Inductive exn : Type :=
| AssertionError (msg : string)
| UnboundLocalError (name : string)   (* a subclass of NameError *)
| IndexError
| ValueError
| OverflowError
| ZeroDivisionError.

(** [isinstance(e, NameError)] *)
Definition is_NameError (e : exn) : bool :=
  match e with UnboundLocalError _ => true | _ => false end.

Inductive outcome (A : Type) : Type :=
| Return (a : A)
| Raise (e : exn).
Arguments Return {A} a.
Arguments Raise {A} e.

Definition M (S A : Type) : Type := S -> S * outcome A.

Definition ret {S A} (a : A) : M S A := fun s => (s, Return a).

Definition bind {S A B} (m : M S A) (k : A -> M S B) : M S B :=
  fun s =>
    match m s with
    | (s', Return a) => k a s'
    | (s', Raise e) => (s', Raise e)
    end.

Definition get {S} : M S S := fun s => (s, Return s).
Definition put {S} (s : S) : M S unit := fun _ => (s, Return tt).
Definition modify {S} (f : S -> S) : M S unit := fun s => (f s, Return tt).
Definition raise {S A} (e : exn) : M S A := fun s => (s, Raise e).

(** The call of a function that does not touch the state. *)
Definition lift {S A} (o : outcome A) : M S A := fun s => (s, o).

(** [assert cond, msg] *)
Definition assert {S} (cond : bool) (msg : string) : M S unit :=
  if cond then ret tt else raise (AssertionError msg).

Declare Scope monad_scope.
Delimit Scope monad_scope with monad.
Notation "x <- m ;; k" := (bind m (fun x => k))
  (at level 61, m at next level, right associativity) : monad_scope.
Notation "m ;; k" := (bind m (fun _ => k))
  (at level 61, right associativity) : monad_scope.
Open Scope monad_scope.

(** A view onto a part [V] of a state [S]: numpy slices and attribute
    accesses alias the storage they were taken from, so running a
    computation on the view is running it on that part of the state. *)
Record view (S V : Type) : Type := mkview {
  vget : S -> V;
  vset : V -> S -> S
}.

Definition zoom {S V A} (v : view S V) (m : M V A) : M S A :=
  fun s =>
    let (x, r) := m (vget v s) in (vset v x s, r).

Definition vcompose {S V W} (v : view S V) (w : view V W) : view S W :=
  {| vget := fun s => vget w (vget v s);
     vset := fun x s => vset v (vset w x (vget v s)) s |}.

(** [for i, x in enumerate(xs, start=i): acc = body(i, x, acc)] *)
Fixpoint for_enumerate_from {S A B} (i : nat) (xs : list A)
    (body : nat -> A -> B -> M S B) (acc : B) : M S B :=
  match xs with
  | [] => ret acc
  | x :: xs' =>
      acc' <- body i x acc ;;
      for_enumerate_from (Datatypes.S i) xs' body acc'
  end.

Definition for_enumerate {S A B} (xs : list A)
    (body : nat -> A -> B -> M S B) (acc : B) : M S B :=
  for_enumerate_from 0 xs body acc.

(** [for i in range(n): body(i)] *)
Definition for_range {S} (n : nat) (body : nat -> M S unit) : M S unit :=
  for_enumerate (seq 0 n) (fun _ i _ => body i) tt.

(** Indexing a sequence held in the state: [a[i]], [a[i] = x]. *)
Definition getitem {A} (i : nat) : M (list A) A :=
  fun a =>
    match nth_error a i with
    | Some x => (a, Return x)
    | None => (a, Raise IndexError)
    end.

Fixpoint replace_nth {A} (i : nat) (x : A) (a : list A) : list A :=
  match a, i with
  | [], _ => []
  | _ :: a', O => x :: a'
  | y :: a', Datatypes.S i' => y :: replace_nth i' x a'
  end.

Definition setitem {A} (i : nat) (x : A) : M (list A) unit :=
  fun a =>
    if i <? length a then (replace_nth i x a, Return tt)
    else (a, Raise IndexError).

(** [xs[i]] on a Python list that is not part of the state. *)
Definition list_getitem {S A} (xs : list A) (i : nat) : M S A :=
  match nth_error xs i with
  | Some x => ret x
  | None => raise IndexError
  end.

(* ================================================================= *)
(** ** [math.exp] *)

(** [math.exp(x)], as CPython defines it on top of the C function: a
    [nan] that the argument does not account for is a [ValueError], an
    infinite result of a finite argument is the [OverflowError]
    "math range error"; a result that underflows to zero is returned. *)
Definition _exp `{Libm} (x : float) : outcome float :=
  let r := c_exp x in
  if is_nan r && negb (is_nan x) then Raise ValueError
  else if is_infinity r && is_finite x then Raise OverflowError
  else Return r.

(* ================================================================= *)
(** ** The history of runs *)

Module History.

(** Modelled from the spec: [pypmc.tools.History], the growable ledger
    whose source is not part of the files at hand.  It is append-only
    storage of rows grouped by run; [len] counts the runs, iterating
    yields one run after the other, [h[:]] is the flat view of all rows,
    [h[:-1]] the flat view of all runs but the last, [append n] adds a run
    of [n] uninitialised rows and returns a view of it, [clear] empties
    the ledger.  Preallocated capacity is not observable and is left
    out. *)
Definition t (A : Type) : Type := list (list A).

(** Modelled from the spec: the ledger [History(dim, prealloc)] is
    created empty. *)
Definition empty {A} : t A := [].

(** Modelled from the spec: [len(h)] is the number of runs. *)
Definition len {A} (h : t A) : nat := length h.

(** Modelled from the spec: [h.append(n)] adds one run of [n] rows that
    are not initialised. *)
Definition append {A} (uninit : A) (n : nat) (h : t A) : t A :=
  h ++ [repeat uninit n].

(** Modelled from the spec: [h.clear()] leaves no run. *)
Definition clear {A} (h : t A) : t A := [].

(** Cut a flat sequence of rows back into runs of the given lengths. *)
Fixpoint regroup {A} (sizes : list nat) (flat : list A) : list (list A) :=
  match sizes with
  | [] => []
  | n :: sizes' => firstn n flat :: regroup sizes' (skipn n flat)
  end.

(** Modelled from the spec: [h[:]], the view of all rows; the runs keep
    their lengths when rows are written through it. *)
Definition all {A} : view (t A) (list A) :=
  {| vget := fun h => concat h;
     vset := fun rows h => regroup (map (@length A) h) rows |}.

(** Modelled from the spec: [h[-1]], the view of the newest run, which
    is the view [append] returns. *)
Definition last_run {A} : view (t A) (list A) :=
  {| vget := fun h => last h [];
     vset := fun rows h => removelast h ++ [rows] |}.

(** Modelled from the spec: [h[:-1]], the view of the rows of all runs
    but the newest. *)
Definition old {A} : view (t A) (list A) :=
  {| vget := fun h => concat (removelast h);
     vset := fun rows h =>
       regroup (map (@length A) (removelast h)) rows ++ [last h []] |}.

End History.

(* ================================================================= *)
(** ** Rows, proposals and targets *)

(** A point is a 1d array of floats. *)
Definition point : Type := list float.

(** A float slot of a ledger: [None] is memory that was allocated and
    never written, whose content is unspecified; whatever is computed
    from such a slot is unspecified too. *)
Definition cell : Type := option float.

Definition cell_map2 (f : float -> float -> float) (a b : cell) : cell :=
  match a, b with
  | Some x, Some y => Some (f x y)
  | _, _ => None
  end.

(** [_exp(v)] on the content of a slot.  For a slot that was never
    written the result is unspecified, and stays so: no call is made that
    could raise. *)
Definition exp_cell `{Libm} {S} (v : cell) : M S cell :=
  match v with
  | Some x => r <- lift (_exp x) ;; ret (Some r)
  | None => ret None
  end.

(** Row of [self.history]: column 0 is the weight, the others are the
    coordinates of the sample. *)
Record sample_row : Type := mk_sample_row {
  weight : cell;
  coords : option point
}.

Definition sample_uninit : sample_row :=
  {| weight := None; coords := None |}.

Definition with_weight (w : cell) (r : sample_row) : sample_row :=
  {| weight := w; coords := coords r |}.

Definition with_coords (x : point) (r : sample_row) : sample_row :=
  {| weight := weight r; coords := Some x |}.

(** State of [numpy.random.mtrand], encoded as a number. *)
Definition RNG : Type := nat.

(** The proposal density (an external collaborator): [propose] draws [N]
    points and reports the component each came from, [evaluate] is the
    log-density.  Both are pure here: neither changes the proposal.  That
    [propose] returns as many points as it was asked for is part of the
    type. *)
Record Proposal : Type := mk_Proposal {
  propose : nat -> RNG -> list point * list nat * RNG;
  evaluate : point -> float;
  propose_count : forall N g, length (fst (fst (propose N g))) = N
}.

(** [copy.deepcopy] of an immutable value *)
Definition _cp (q : Proposal) : Proposal := q.

(** Modelled from the spec: [pypmc.tools.merge_function_with_indicator],
    whose source is not part of the files at hand.  The merged function
    returns [alternative] outside the support without calling the
    function; without an indicator it is the function itself. *)
Definition _indmerge (function : point -> float)
    (indicator : option (point -> bool)) (alternative : float)
    : point -> float :=
  match indicator with
  | None => function
  | Some ind => fun x => if ind x then function x else alternative
  end.

(** [this_run[:,1:] = points] *)
Definition assign_coords (points : list point) : M (list sample_row) unit :=
  fun rows =>
    if length points =? length rows
    then (map (fun pr => with_coords (fst pr) (snd pr)) (combine points rows),
          Return tt)
    else (rows, Raise ValueError).

(** [run], written once for both samplers: the calls to
    [self._get_samples] and [self._calculate_weights] are dispatched on
    the class of [self].  The result is [origin] under [trace] and [None]
    otherwise. *)
Definition run_method {S}
    (_get_samples : nat -> bool -> M S (option (list nat)))
    (_calculate_weights : nat -> M S unit)
    (N : nat) (trace : bool) : M S (option (list nat)) :=
  if trace then
    origin <- _get_samples N true ;;
    _calculate_weights N ;;
    ret origin
  else
    _get_samples N false ;;
    _calculate_weights N ;;
    ret None.

(** [a[i] = f(a[i])]: a write to some columns of row [i] *)
Definition update_item {A} (i : nat) (f : A -> A) : M (list A) unit :=
  x <- getitem i ;;
  setitem i (f x).

(** [all_weights[:] = values] *)
Definition assign_weights (values : list cell) : M (list sample_row) unit :=
  fun rows =>
    if length values =? length rows
    then (map (fun vr => with_weight (fst vr) (snd vr)) (combine values rows),
          Return tt)
    else (rows, Raise ValueError).

(* ================================================================= *)
(** ** [class ImportanceSampler] *)

Module ImportanceSampler.

Record t : Type := mk {
  proposal : Proposal;
  rng : RNG;
  target : point -> float;
  history : History.t sample_row
}.

Definition with_rng (g : RNG) (self : t) : t :=
  {| proposal := proposal self; rng := g;
     target := target self; history := history self |}.

(** [self.proposal = q], as a caller does between two runs *)
Definition with_proposal (q : Proposal) (self : t) : t :=
  {| proposal := q; rng := rng self;
     target := target self; history := history self |}.

(** [self.history] *)
Definition history_view : view t (History.t sample_row) :=
  {| vget := history;
     vset := fun h self =>
       {| proposal := proposal self; rng := rng self;
          target := target self; history := h |} |}.

(** [this_run]: the view of the newest run that [self.history.append]
    returned; it aliases the rows of [self.history]. *)
Definition this_run : view t (list sample_row) :=
  vcompose history_view History.last_run.

Definition __init__ (target : point -> float) (proposal : Proposal)
    (indicator : option (point -> bool)) (rng : RNG) : t :=
  {| proposal := _cp proposal;
     rng := rng;
     target := _indmerge target indicator neg_infinity;
     history := History.empty |}.

Definition _get_samples (N : nat) (trace : bool)
    : M t (option (list nat)) :=
  (* this_run = self.history.append(N) *)
  zoom history_view (modify (History.append sample_uninit N)) ;;
  (* this_run[:,1:], origin = self.proposal.propose(N, self.rng, ...) *)
  self <- get ;;
  let '(points, origin, g) := propose (proposal self) N (rng self) in
  put (with_rng g self) ;;
  zoom this_run (assign_coords points) ;;
  ret (if trace then Some origin else None).

Definition _calculate_weights `{Libm} (N : nat) : M t unit :=
  self <- get ;;
  zoom this_run
    (for_range N (fun i =>
       row <- getitem i ;;
       let tmp := coords row in
       let tmp :=
         option_map
           (fun x => (target self x - evaluate (proposal self) x)%float) tmp in
       w <- exp_cell tmp ;;
       setitem i (with_weight w row))).

Definition run `{Libm} : nat -> bool -> M t (option (list nat)) :=
  run_method _get_samples _calculate_weights.

End ImportanceSampler.

(* ================================================================= *)
(** ** [class DeterministicIS(ImportanceSampler)] *)

Module DeterministicIS.

(** Row of [self._deltas_targets_evaluated]: column 0 is the accumulated
    mixture density [delta], column 1 the target value. *)
Record aux_row : Type := mk_aux_row {
  delta : cell;
  target_value : cell
}.

Definition aux_uninit : aux_row := {| delta := None; target_value := None |}.

Definition with_delta (d : cell) (r : aux_row) : aux_row :=
  {| delta := d; target_value := target_value r |}.

Definition with_target_value (v : cell) (r : aux_row) : aux_row :=
  {| delta := delta r; target_value := v |}.

Record t : Type := mk {
  super : ImportanceSampler.t;
  proposal_history : list Proposal;
  _deltas_targets_evaluated : History.t aux_row
}.

Definition proposal (self : t) := ImportanceSampler.proposal (super self).
Definition target (self : t) := ImportanceSampler.target (super self).
Definition history (self : t) := ImportanceSampler.history (super self).

Definition super_view : view t ImportanceSampler.t :=
  {| vget := super;
     vset := fun s self =>
       {| super := s; proposal_history := proposal_history self;
          _deltas_targets_evaluated := _deltas_targets_evaluated self |} |}.

Definition proposal_history_view : view t (list Proposal) :=
  {| vget := proposal_history;
     vset := fun l self =>
       {| super := super self; proposal_history := l;
          _deltas_targets_evaluated := _deltas_targets_evaluated self |} |}.

Definition deltas_targets_view : view t (History.t aux_row) :=
  {| vget := _deltas_targets_evaluated;
     vset := fun h self =>
       {| super := super self; proposal_history := proposal_history self;
          _deltas_targets_evaluated := h |} |}.

Definition history_view : view t (History.t sample_row) :=
  vcompose super_view ImportanceSampler.history_view.

Definition __init__ (target : point -> float) (proposal : Proposal)
    (indicator : option (point -> bool)) (rng : RNG) : t :=
  {| super := ImportanceSampler.__init__ target proposal indicator rng;
     (* save all past proposals in this list *)
     proposal_history := [];
     (* save all evaluated target and proposal values *)
     _deltas_targets_evaluated := History.empty |}.

Definition clear : M t unit :=
  zoom history_view (modify (@History.clear _)) ;;
  zoom deltas_targets_view (modify (@History.clear _)) ;;
  zoom proposal_history_view (put []).

Definition inconsistency_message : string :=
  "Inconsistent state encountered. If you used " ++
  "``self.history.clear()`` try ``self.clear()`` instead.".

Definition _get_samples (N : nat) (trace : bool)
    : M t (option (list nat)) :=
  zoom super_view (ImportanceSampler._get_samples N trace).

(** [this_weights_samples], the argument of [_calculate_weights]: it is
    the view [self.history.append] returned in [_get_samples]. *)
Definition this_weights_samples : view t (list sample_row) :=
  vcompose history_view History.last_run.

(** [this_deltas_targets] *)
Definition this_deltas_targets : view t (list aux_row) :=
  vcompose deltas_targets_view History.last_run.

(** [old_weights_samples = self.history[:-1]] and
    [all_weights_samples = self.history[:]] *)
Definition old_weights_samples : view t (list sample_row) :=
  vcompose history_view History.old.
Definition all_weights_samples : view t (list sample_row) :=
  vcompose history_view History.all.

(** [old_deltas_targets] and [all_deltas_targets] *)
Definition old_deltas_targets : view t (list aux_row) :=
  vcompose deltas_targets_view History.old.
Definition all_deltas_targets : view t (list aux_row) :=
  vcompose deltas_targets_view History.all.

(** The row [deltas[i] += n * e] stores, where [row] is what [deltas[i]]
    held and [e] is the value [_exp] returned. *)
Definition add_to_delta (n : nat) (e : cell) (row : aux_row) : aux_row :=
  with_delta
    (cell_map2 PrimFloat.add (delta row)
       (option_map (fun e => (of_nat n * e)%float) e))
    row.

(** [targets / (deltas / n)], row by row *)
Definition mixture_weight (n : nat) (row : aux_row) : cell :=
  cell_map2 PrimFloat.div (target_value row)
    (cell_map2 PrimFloat.div (delta row) (Some (of_nat n))).

Definition _calculate_weights `{Libm} (this_N : nat) : M t unit :=
  (* append proposal for this run to history *)
  modify (fun self =>
    vset proposal_history_view
      (proposal_history self ++ [_cp (proposal self)]) self) ;;
  (* allocate memory for new target and proposal evaluations *)
  zoom deltas_targets_view (modify (History.append aux_uninit this_N)) ;;
  (* create references *)
  self <- get ;;
  let this_samples := map coords (vget this_weights_samples self) in
  assert (length (vget old_weights_samples self)
            =? length (vget old_deltas_targets self))
         inconsistency_message ;;
  assert (length (vget all_weights_samples self)
            =? length (vget all_deltas_targets self))
         inconsistency_message ;;
  (* evaluate the target at the new samples *)
  zoom this_deltas_targets
    (for_enumerate this_samples (fun i sample _ =>
       v <- exp_cell (option_map (target self) sample) ;;
       update_item i (with_target_value v)) tt) ;;
  (* calculate the deltas for the new samples *)
  zoom this_deltas_targets (modify (map (with_delta (Some 0%float)))) ;;
  i_run <-
    zoom this_deltas_targets
      (for_enumerate this_samples (fun i_sample sample i_run =>
         for_enumerate (history self) (fun i_run i_samples _ =>
           (* an augmented assignment reads its target first *)
           row <- getitem i_sample ;;
           q <- list_getitem (proposal_history self) i_run ;;
           e <- exp_cell (option_map (evaluate q) sample) ;;
           setitem i_sample (add_to_delta (length i_samples) e row) ;;
           ret (Some i_run)) i_run) None) ;;
  match i_run with
  | None => raise (UnboundLocalError "i_run")
  | Some i_run =>
      assert (i_run + 1 =? length (proposal_history self))
             inconsistency_message
  end ;;
  (* not to be done if this is the first run *)
  (if negb (length (vget old_weights_samples self) =? 0) then
     let old_samples := map coords (vget old_weights_samples self) in
     (* calculate the deltas for the old samples *)
     zoom old_deltas_targets
       (for_enumerate old_samples (fun i_sample sample _ =>
          row <- getitem i_sample ;;
          q <- list_getitem (proposal_history self)
                 (length (proposal_history self) - 1) ;;
          e <- exp_cell (option_map (evaluate q) sample) ;;
          setitem i_sample (add_to_delta this_N e row)) tt)
   else ret tt) ;;
  (* calculate the weights (Algorithm1 in [Cor+12]) *)
  self <- get ;;
  let n := length (vget all_weights_samples self) in
  zoom all_weights_samples
    (assign_weights
       (map (mixture_weight n) (vget all_deltas_targets self))).

Definition run `{Libm} : nat -> bool -> M t (option (list nat)) :=
  run_method _get_samples _calculate_weights.

End DeterministicIS.

(* ================================================================= *)
(** ** The moment estimators *)

(** What [calculate_expectation] needs of the values of [f]: a product
    with a weight, a sum (with the float [0.] the sum starts from, and
    with another value) and a quotient by the normalization.  Arrays
    compute entry by entry. *)
Class Array (V : Type) : Type := {
  scale : float -> V -> V;      (* w * v *)
  shift : float -> V -> V;      (* s + v, the scalar broadcast *)
  plus : V -> V -> V;           (* u + v *)
  divide : V -> float -> V      (* v / s *)
}.

#[export] Instance Array_float : Array float :=
  {| scale := PrimFloat.mul; shift := PrimFloat.add;
     plus := PrimFloat.add; divide := PrimFloat.div |}.

Fixpoint zip_with {A B C} (f : A -> B -> C) (u : list A) (v : list B)
    : list C :=
  match u, v with
  | a :: u', b :: v' => f a b :: zip_with f u' v'
  | _, _ => []
  end.

#[export] Instance Array_list (V : Type) `{Array V} : Array (list V) :=
  {| scale := fun w => map (scale w);
     shift := fun s => map (shift s);
     plus := zip_with plus;
     divide := fun v s => map (fun x => divide x s) v |}.

(** A row [(w, x)] of the sample array: [point[0]] and [point[1:]]. *)
Definition weighted_sample : Type := (float * point)%type.

(** [out += v], where [out] is still the Python float it was
    initialised with ([inl]) or already a numpy value ([inr]). *)
Definition iadd {V} `{Array V} (out : float + V) (v : V) : float + V :=
  match out with
  | inl s => inr (shift s v)
  | inr u => inr (plus u v)
  end.

(** [out / normalization].  Numpy values divide without raising; two
    Python floats are left only when there was no sample at all, and then
    both are [0.]. *)
Definition truediv {V} `{Array V} (out : float + V) (normalization : float)
    : outcome V :=
  match out with
  | inl _ => Raise ZeroDivisionError
  | inr u => Return (divide u normalization)
  end.

Definition calculate_expectation {V} `{Array V}
    (samples : list weighted_sample) (f : point -> V) : outcome V :=
  let normalization := 0%float in
  let out : float + V := inl 0%float in
  let (normalization, out) :=
    fold_left
      (fun (acc : float * (float + V)) (point : weighted_sample) =>
         let (normalization, out) := acc in
         ((normalization + fst point)%float,
          iadd out (scale (fst point) (f (snd point)))))
      samples (normalization, out) in
  truediv out normalization.

(** [numpy.average(a, axis=0, weights=w)] as numpy documents it: the
    weighted sum of the rows over the sum of the weights, and a
    [ZeroDivisionError] when the weights sum to zero. *)
Definition np_average `{Numpy} (a : list point) (w : list float)
    : outcome point :=
  let scl := np_sum w in
  if is_zero scl then Raise ZeroDivisionError
  else Return (divide (np_sum_axis0 (zip_with scale w a)) scl).

Definition calculate_mean `{Numpy} (samples : list weighted_sample)
    : outcome point :=
  np_average (map snd samples) (map fst samples).

(** [numpy.einsum('i,j', u, v)] *)
Definition outer (u v : point) : list (list float) :=
  map (fun ui => map (fun vj => (ui * vj)%float) v) u.

Definition calculate_covariance `{Numpy} (samples : list weighted_sample)
    : outcome (list (list float)) :=
  let sum_weights_sq := np_square (np_sum (map fst samples)) in
  let sum_sq_weights := np_sum (map (fun s => np_square (fst s)) samples) in
  match calculate_mean samples with
  | Raise e => Raise e
  | Return mean =>
      match
        calculate_expectation samples
          (fun x =>
             outer (zip_with PrimFloat.sub x mean)
               (zip_with PrimFloat.sub x mean))
      with
      | Raise e => Raise e
      | Return second_moment =>
          Return
            (scale
               (sum_weights_sq / (sum_weights_sq - sum_sq_weights))%float
               second_moment)
      end
  end.

(* ================================================================= *)
(** * Vocabulary of the specification *)

(** The dummy density of the test suite: it proposes one fixed point and
    evaluates to one fixed value. *)
Definition DummyProposal (proposed : point) (eval_to : float) : Proposal :=
  {| propose := fun N g => (repeat proposed N, repeat 0 N, g);
     evaluate := fun _ => eval_to;
     propose_count := fun N _ => repeat_length proposed N |}.

(** ** Calls of [math.exp] *)

Definition returns {A} (o : outcome A) : bool :=
  match o with Return _ => true | Raise _ => false end.

(** [math.exp(x)] returns: it is then the value of the C function. *)
Definition exp_returns `{Libm} (x : float) : bool := returns (_exp x).

(** ** Plain importance sampling *)

(** What [propose] returns on the sampler's current proposal and
    generator. *)
Definition drawn (self : ImportanceSampler.t) (N : nat) : list point :=
  fst (fst (propose (ImportanceSampler.proposal self) N
              (ImportanceSampler.rng self))).

Definition origin (self : ImportanceSampler.t) (N : nat) : list nat :=
  snd (fst (propose (ImportanceSampler.proposal self) N
              (ImportanceSampler.rng self))).

Definition next_rng (self : ImportanceSampler.t) (N : nat) : RNG :=
  snd (propose (ImportanceSampler.proposal self) N
         (ImportanceSampler.rng self)).

(** The importance weight [exp(log_target(x) - log_proposal(x))], where
    [math.exp] returns. *)
Definition importance_weight `{Libm} (target : point -> float)
    (q : Proposal) (x : point) : float :=
  c_exp (target x - evaluate q x).

Definition weighted `{Libm} (self : ImportanceSampler.t) (x : point)
    : sample_row :=
  {| weight :=
       Some (importance_weight (ImportanceSampler.target self)
               (ImportanceSampler.proposal self) x);
     coords := Some x |}.

(** The arguments [math.exp] is called with in a run of [N] points of the
    plain sampler, and whether it returns at all of them. *)
Definition ImportanceSampler_exp_arguments (self : ImportanceSampler.t)
    (N : nat) : list float :=
  map (fun x =>
         (ImportanceSampler.target self x
          - evaluate (ImportanceSampler.proposal self) x)%float)
    (drawn self N).

Definition ImportanceSampler_no_overflow `{Libm}
    (self : ImportanceSampler.t) (N : nat) : bool :=
  forallb exp_returns (ImportanceSampler_exp_arguments self N).

(** One round of a session: the caller installs a proposal and runs. *)
Definition round : Type := (Proposal * nat * bool)%type.

Definition ImportanceSampler_rounds `{Libm} (rounds : list round)
    (self : ImportanceSampler.t) : ImportanceSampler.t :=
  fold_left
    (fun self (r : round) =>
       let '(q, N, trace) := r in
       fst (ImportanceSampler.run N trace
              (ImportanceSampler.with_proposal q self)))
    rounds self.

(** A slot that was written holds a value with the property [P]. *)
Definition written (P : float -> Prop) (c : cell) : Prop :=
  match c with
  | Some v => P v
  | None => True
  end.

(** [w < 0] is false: [w] is [nan], a zero, or positive. *)
Definition not_negative (w : float) : Prop := (w <? 0)%float = false.

(** ** Deterministic-mixture weights *)

(** The mixture density accumulated for a sample over the runs recorded
    so far: [0. + N_0 * exp(q_0(x)) + ... + N_r * exp(q_r(x))], summed in
    the order of the runs. *)
Definition mixture_delta `{Libm} (sizes : list nat)
    (snapshots : list Proposal) (x : point) : float :=
  fold_left
    (fun acc nq => (acc + of_nat (fst nq) * c_exp (evaluate (snd nq) x))%float)
    (combine sizes snapshots) 0%float.

(** The deterministic-mixture weight of [x]:
    [exp(log_target(x)) / (delta(x) / N_total)]. *)
Definition mixture_weight_of `{Libm} (target : point -> float)
    (sizes : list nat) (snapshots : list Proposal) (x : point) : float :=
  (c_exp (target x)
   / (mixture_delta sizes snapshots x / of_nat (list_sum sizes)))%float.

(** The auxiliary row a sample [x] must have among runs of the given
    sizes and snapshots. *)
Definition aux_of `{Libm} (target : point -> float) (sizes : list nat)
    (snapshots : list Proposal) (x : point) : DeterministicIS.aux_row :=
  {| DeterministicIS.delta := Some (mixture_delta sizes snapshots x);
     DeterministicIS.target_value := Some (c_exp (target x)) |}.

Definition row_consistent `{Libm} (target : point -> float)
    (sizes : list nat) (snapshots : list Proposal) (row : sample_row)
    (aux : DeterministicIS.aux_row) : Prop :=
  exists x, coords row = Some x /\ aux = aux_of target sizes snapshots x.

(** The three structures of the sampler agree: both ledgers have the
    same runs and there is one snapshot per run. *)
Record structured (self : DeterministicIS.t) : Prop := mk_structured {
  same_runs :
    map (@length _) (DeterministicIS.history self)
    = map (@length _) (DeterministicIS._deltas_targets_evaluated self);
  one_snapshot_per_run :
    length (DeterministicIS.proposal_history self)
    = length (DeterministicIS.history self)
}.

(** The two ledgers hold the same number of rows. *)
Definition same_row_count (self : DeterministicIS.t) : Prop :=
  length (concat (DeterministicIS.history self))
  = length (concat (DeterministicIS._deltas_targets_evaluated self)).

(** A consistent sampler: its structures agree and every auxiliary row
    holds the target value and the mixture density of its sample.
    Nothing is asked of the stored weights. *)
Record consistent `{Libm} (self : DeterministicIS.t) : Prop :=
  mk_consistent {
  consistent_structured : structured self;
  rows_consistent :
    Forall2
      (row_consistent (DeterministicIS.target self)
         (map (@length _) (DeterministicIS.history self))
         (DeterministicIS.proposal_history self))
      (concat (DeterministicIS.history self))
      (concat (DeterministicIS._deltas_targets_evaluated self))
}.

(** The state right after construction or [clear]. *)
Definition empty (self : DeterministicIS.t) : Prop :=
  DeterministicIS.history self = []
  /\ DeterministicIS._deltas_targets_evaluated self = []
  /\ DeterministicIS.proposal_history self = [].

(** [self.proposal = q], as a caller does between two runs *)
Definition set_proposal (q : Proposal) (self : DeterministicIS.t)
    : DeterministicIS.t :=
  vset DeterministicIS.super_view
    (ImportanceSampler.with_proposal q (DeterministicIS.super self)) self.

Definition DeterministicIS_rounds `{Libm} (rounds : list round)
    (self : DeterministicIS.t) : DeterministicIS.t :=
  fold_left
    (fun self (r : round) =>
       let '(q, N, trace) := r in
       fst (DeterministicIS.run N trace (set_proposal q self)))
    rounds self.

    (* self.clear() *)



(** The sizes asked for in a session. *)
Definition sizes_of (rounds : list round) : list nat :=
  map (fun r : round => snd (fst r)) rounds.

(** The log-densities [math.exp] is called with in a run of [N] points:
    the target and every snapshot, the copy of the current proposal
    included, at the new points, and the current proposal at the points
    of the old runs. *)
Definition exp_arguments (self : DeterministicIS.t) (N : nat)
    : list float :=
  let new := drawn (DeterministicIS.super self) N in
  map (DeterministicIS.target self) new
  ++ flat_map
       (fun x =>
          map (fun q => evaluate q x)
            (DeterministicIS.proposal_history self
             ++ [DeterministicIS.proposal self]))
       new
  ++ flat_map
       (fun row =>
          match coords row with
          | Some x => [evaluate (DeterministicIS.proposal self) x]
          | None => []
          end)
       (concat (DeterministicIS.history self)).

(** No call of [math.exp] in a run of [N] points raises. *)
Definition no_overflow `{Libm} (self : DeterministicIS.t) (N : nat) : bool :=
  forallb exp_returns (exp_arguments self N).

(** ** The states a deterministic-mixture run goes through *)

(** The row after [deltas[i] += n * _exp(q.evaluate(sample))], where
    [math.exp] returns. *)
Definition add_density `{Libm} (n : nat) (q : Proposal)
    (sample : option point) (row : DeterministicIS.aux_row)
    : DeterministicIS.aux_row :=
  DeterministicIS.add_to_delta n
    (option_map (fun x => c_exp (evaluate q x)) sample) row.

Definition accumulate `{Libm} (sample : option point)
    (row : DeterministicIS.aux_row) (nq : nat * Proposal)
    : DeterministicIS.aux_row :=
  add_density (fst nq) (snd nq) sample row.

(** The value of the loop variable [i_run] after a loop over [runs] that
    started with the index [j]. *)
Definition last_index (j : nat) {A} (runs : list A) (acc : option nat)
    : option nat :=
  match runs with
  | [] => acc
  | _ :: _ => Some (j + length runs - 1)
  end.

(** The auxiliary row computed for a new sample. *)
Definition new_aux_row `{Libm} (target : point -> float) (sizes : list nat)
    (snapshots : list Proposal) (sample : option point)
    : DeterministicIS.aux_row :=
  fold_left (accumulate sample) (combine sizes snapshots)
    {| DeterministicIS.delta := Some 0%float;
       DeterministicIS.target_value :=
         option_map (fun x => c_exp (target x)) sample |}.

(** The auxiliary rows of the old samples, corrected for the new
    proposal. *)
Definition corrected_old `{Libm} (N : nat) (q : Proposal)
    (h : History.t sample_row) (a : History.t DeterministicIS.aux_row)
    : list DeterministicIS.aux_row :=
  map (fun p => add_density N q (fst p) (snd p))
    (combine (map coords (concat h)) (concat a)).

Definition reweighted (aux : list DeterministicIS.aux_row)
    (rows : list sample_row) : list sample_row :=
  map (fun vr => with_weight (fst vr) (snd vr))
    (combine (map (DeterministicIS.mixture_weight (length rows)) aux) rows).

(** The sampler after [_get_samples]: the new run [rows] is in the
    ledger. *)
Definition sampled (self : DeterministicIS.t) (rows : list sample_row)
    : DeterministicIS.t :=
  {| DeterministicIS.super :=
       {| ImportanceSampler.proposal := DeterministicIS.proposal self;
          ImportanceSampler.rng :=
            ImportanceSampler.rng (DeterministicIS.super self);
          ImportanceSampler.target := DeterministicIS.target self;
          ImportanceSampler.history :=
            DeterministicIS.history self ++ [rows] |};
     DeterministicIS.proposal_history :=
       DeterministicIS.proposal_history self;
     DeterministicIS._deltas_targets_evaluated :=
       DeterministicIS._deltas_targets_evaluated self |}.

(** The sampler once the snapshot and the auxiliary rows are appended. *)
Definition allocated (self : DeterministicIS.t) (rows : list sample_row)
    : DeterministicIS.t :=
  {| DeterministicIS.super := DeterministicIS.super (sampled self rows);
     DeterministicIS.proposal_history :=
       DeterministicIS.proposal_history self
       ++ [DeterministicIS.proposal self];
     DeterministicIS._deltas_targets_evaluated :=
       DeterministicIS._deltas_targets_evaluated self
       ++ [repeat DeterministicIS.aux_uninit (length rows)] |}.

Definition this_aux `{Libm} (self : DeterministicIS.t)
    (rows : list sample_row) : list DeterministicIS.aux_row :=
  map (new_aux_row (DeterministicIS.target self)
         (map (@length _) (DeterministicIS.history self ++ [rows]))
         (DeterministicIS.proposal_history self
          ++ [DeterministicIS.proposal self]))
    (map coords rows).

(** The sampler when [_calculate_weights] returns. *)
Definition finished `{Libm} (self : DeterministicIS.t)
    (rows : list sample_row) : DeterministicIS.t :=
  {| DeterministicIS.super :=
       {| ImportanceSampler.proposal := DeterministicIS.proposal self;
          ImportanceSampler.rng :=
            ImportanceSampler.rng (DeterministicIS.super self);
          ImportanceSampler.target := DeterministicIS.target self;
          ImportanceSampler.history :=
            History.regroup
              (map (@length _) (DeterministicIS.history self ++ [rows]))
              (reweighted
                 (corrected_old (length rows) (DeterministicIS.proposal self)
                    (DeterministicIS.history self)
                    (DeterministicIS._deltas_targets_evaluated self)
                  ++ this_aux self rows)
                 (concat (DeterministicIS.history self) ++ rows)) |};
     DeterministicIS.proposal_history :=
       DeterministicIS.proposal_history self
       ++ [DeterministicIS.proposal self];
     DeterministicIS._deltas_targets_evaluated :=
       History.regroup
         (map (@length _) (DeterministicIS._deltas_targets_evaluated self))
         (corrected_old (length rows) (DeterministicIS.proposal self)
            (DeterministicIS.history self)
            (DeterministicIS._deltas_targets_evaluated self))
       ++ [this_aux self rows] |}.

(** The sampler once [_get_samples] has advanced the generator. *)
Definition drawn_state (self : DeterministicIS.t) (N : nat)
    : DeterministicIS.t :=
  vset DeterministicIS.super_view
    (ImportanceSampler.with_rng (next_rng (DeterministicIS.super self) N)
       (DeterministicIS.super self))
    self.

Definition new_rows (self : DeterministicIS.t) (N : nat) : list sample_row :=
  map (fun x => with_coords x sample_uninit)
    (drawn (DeterministicIS.super self) N).

(** What [run] hands on from an outcome of [_calculate_weights]. *)
Definition run_result (self : DeterministicIS.t) (N : nat) (trace : bool)
    (o : outcome unit) : outcome (option (list nat)) :=
  match o with
  | Return _ =>
      Return (if trace then Some (origin (DeterministicIS.super self) N)
              else None)
  | Raise e => Raise e
  end.

Definition row_weighted `{Libm} (target : point -> float)
    (sizes : list nat) (snapshots : list Proposal) (row : sample_row)
    : Prop :=
  exists x, coords row = Some x
    /\ weight row = Some (mixture_weight_of target sizes snapshots x).

(** Every stored weight is the deterministic-mixture weight. *)
Definition weights_stored `{Libm} (self : DeterministicIS.t) : Prop :=
  Forall
    (row_weighted (DeterministicIS.target self)
       (map (@length _) (DeterministicIS.history self))
       (DeterministicIS.proposal_history self))
    (concat (DeterministicIS.history self)).

(** What a call of [DeterministicIS.run] in which [math.exp] does not
    raise returns or raises, read off the shape of the sampler: the row
    counts of the two ledgers, the number of points asked for, and the
    numbers of runs and of snapshots. *)
Definition expected_outcome (N : nat) (trace : bool)
    (self : DeterministicIS.t) : outcome (option (list nat)) :=
  let rows := length (concat (DeterministicIS.history self)) in
  let aux_rows :=
    length (concat (DeterministicIS._deltas_targets_evaluated self)) in
  let runs := length (DeterministicIS.history self) in
  let snapshots := length (DeterministicIS.proposal_history self) in
  if negb (rows =? aux_rows) then
    Raise (AssertionError DeterministicIS.inconsistency_message)
  else if N =? 0 then
    Raise (UnboundLocalError "i_run")
  else if snapshots <? runs then
    Raise IndexError
  else if runs <? snapshots then
    Raise (AssertionError DeterministicIS.inconsistency_message)
  else
    Return (if trace then Some (origin (DeterministicIS.super self) N)
            else None).

(** ** Values that are not negative *)

(** On the specification of the doubles: a value whose sign bit is
    clear, or [nan]; a value that is not negative; a zero. *)
Definition SF_unsigned (s : spec_float) : Prop :=
  match s with
  | S754_zero b | S754_infinity b | S754_finite b _ _ => b = false
  | S754_nan => True
  end.

Definition SF_not_negative (s : spec_float) : Prop :=
  match s with
  | S754_infinity b | S754_finite b _ _ => b = false
  | S754_zero _ | S754_nan => True
  end.

Definition SF_is_zero (s : spec_float) : Prop :=
  match s with S754_zero _ => True | _ => False end.

(** A double whose sign bit is clear, or [nan]: what a sum of values that
    are not negative is. *)
Definition unsigned (v : float) : Prop := SF_unsigned (Prim2SF v).


(** ** Moments *)

(** One turn of the loop of [calculate_expectation]. *)
Definition expectation_step {V} `{Array V} (f : point -> V)
    (acc : float * (float + V)) (point : weighted_sample)
    : float * (float + V) :=
  let (normalization, out) := acc in
  ((normalization + fst point)%float,
   iadd out (scale (fst point) (f (snd point)))).

(** [m[i][j]], where there is such an entry. *)
Definition entry (m : list (list float)) (i j : nat) : option float :=
  match nth_error m i with
  | Some row => nth_error row j
  | None => None
  end.

(** [m[i][j]] and [m[j][i]] hold the same double (both [nan], if one is)
    wherever one of the two exists. *)
Definition symmetric (m : list (list float)) : Prop :=
  forall i j, entry m i j = entry m j i.

(** ** Reasoning about methods *)

(** From a state with [P], the computation [m] ends, returning or
    raising, in a state and an outcome with [Q]. *)
Definition triple {S A} (P : S -> Prop) (m : M S A)
    (Q : S -> outcome A -> Prop) : Prop :=
  forall s, P s -> Q (fst (m s)) (snd (m s)).

(** [I] holds after [m] whenever it held before, whether [m] returns or
    raises. *)
Definition steady {S A} (I : S -> Prop) (m : M S A) : Prop :=
  triple I m (fun s _ => I s).

(** What a call of [_calculate_weights] leaves of a sampler [s0] whose
    new run is already in the ledger, whatever the outcome [o]: one more
    snapshot, one more run of auxiliary rows, the samples where they
    were, and, if the call raised, the ledger with all it held. *)
Definition calculate_weights_frame (N : nat) (s0 : DeterministicIS.t)
    (s : DeterministicIS.t) (o : outcome unit) : Prop :=
  DeterministicIS.proposal_history s
  = DeterministicIS.proposal_history s0 ++ [DeterministicIS.proposal s0]
  /\ map (@length _) (DeterministicIS._deltas_targets_evaluated s)
     = map (@length _) (DeterministicIS._deltas_targets_evaluated s0) ++ [N]
  /\ DeterministicIS.proposal s = DeterministicIS.proposal s0
  /\ DeterministicIS.target s = DeterministicIS.target s0
  /\ ImportanceSampler.rng (DeterministicIS.super s)
     = ImportanceSampler.rng (DeterministicIS.super s0)
  /\ map (map coords) (DeterministicIS.history s)
     = map (map coords) (DeterministicIS.history s0)
  /\ (forall e, o = Raise e ->
      DeterministicIS.super s = DeterministicIS.super s0).

(** [math.exp] returns on the content of a slot. *)
Definition exp_returns_at `{Libm} (v : cell) : Prop :=
  written (fun x => exp_returns x = true) v.

(** What holds of a sampler at every step of [_calculate_weights] between
    the allocation of the auxiliary rows and the assignment of the
    weights, where [s0] is the sampler at the call. *)
Definition framed (N : nat) (s0 s : DeterministicIS.t) : Prop :=
  DeterministicIS.super s = DeterministicIS.super s0
  /\ DeterministicIS.proposal_history s
     = DeterministicIS.proposal_history s0 ++ [DeterministicIS.proposal s0]
  /\ map (@length _) (DeterministicIS._deltas_targets_evaluated s)
     = map (@length _) (DeterministicIS._deltas_targets_evaluated s0) ++ [N].


(** ** The libraries of the examples *)

(** A stand-in for the C function in the examples: the values
    [math.exp] returns at the arguments the examples use, zero below the
    range of the doubles and [inf] above it.  Anywhere else it gives
    [nan], which [math.exp] turns into an exception: no example rests on a
    value that is not listed here. *)
Definition table_exp (x : float) : float :=
  (if is_nan x then nan
   else if x <=? -746 then 0
   else if 710 <=? x then infinity
   else if x =? 0 then 1
   else if x =? 1 then 2.718281828459045
   else if x =? 2 then 7.38905609893065
   else if x =? -1 then 0.36787944117144233
   else if x =? 0.3 then 1.3498588075760032
   else if x =? 1e-17 then 1
   else nan)%float.

Lemma table_exp_neg_infinity : table_exp neg_infinity = 0%float.
Proof. reflexivity. Qed.

Lemma table_exp_not_negative (x : float) : (table_exp x <? 0)%float = false.
Proof.
  unfold table_exp.
  repeat match goal with
         | |- context [if ?b then _ else _] => destruct b
         end; reflexivity.
Qed.

Definition table_libm : Libm :=
  {| c_exp := table_exp;
     c_exp_neg_infinity := table_exp_neg_infinity;
     c_exp_not_negative := table_exp_not_negative |}.

(** A stand-in for numpy in the examples: every sum runs from the first
    entry to the last. *)
Definition sequential_sum (a : list float) : float :=
  match a with
  | [] => 0%float
  | x :: a' => fold_left PrimFloat.add a' x
  end.

Definition sequential_sum_axis0 (a : list (list float)) : list float :=
  match a with
  | [] => []
  | row :: a' => fold_left (zip_with PrimFloat.add) a' row
  end.

Lemma summation_fold_left (a' : list float) :
  forall a s, summation a s -> summation (a ++ a') (fold_left PrimFloat.add a' s).
Proof.
  induction a' as [|y a' IH]; intros a s H; simpl.
  - now rewrite app_nil_r.
  - replace (a ++ y :: a') with ((a ++ [y]) ++ a')
      by now rewrite <- app_assoc.
    apply IH. apply sum_split with (a1 := a) (a2 := [y]).
    + reflexivity.
    + exact H.
    + constructor.
Qed.

Lemma sequential_sum_summation (a : list float) :
  a <> [] -> summation a (sequential_sum a).
Proof.
  destruct a as [|x a']; [contradiction|]. intros _.
  apply (summation_fold_left a' (sum_one x)).
Qed.

Definition sequential_numpy : Numpy :=
  {| np_sum := sequential_sum;
     np_sum_axis0 := sequential_sum_axis0;
     np_square := fun x => (x * x)%float;
     np_sum_empty := eq_refl;
     np_sum_summation := sequential_sum_summation |}.

(* ================================================================= *)
(** * Properties *)

(** ** Arithmetic of doubles *)

Lemma Prim2SF_zero : Prim2SF 0 = S754_zero false.
Proof. reflexivity. Qed.

Lemma unsigned_spec (v : float) : unsigned v <-> SF_unsigned (Prim2SF v).
Proof. reflexivity. Qed.

Lemma not_negative_spec (v : float) :
  not_negative v <-> SF_not_negative (Prim2SF v).
Proof.
  unfold not_negative. rewrite ltb_spec, Prim2SF_zero.
  unfold SFltb, SFcompare.
  destruct (Prim2SF v) as [s|s| |s m e]; simpl;
    try (destruct s; simpl); split; intros H; auto; discriminate.
Qed.

Lemma unsigned_not_negative (v : float) : unsigned v -> not_negative v.
Proof.
  rewrite unsigned_spec, not_negative_spec.
  destruct (Prim2SF v); simpl; auto.
Qed.
















(** Multiplication of doubles is commutative. *)
Lemma mul_comm (a b : float) : (a * b = b * a)%float.
Proof.
  apply Prim2SF_inj. rewrite !mul_spec. unfold SF64mul.
  destruct (Prim2SF a) as [sa|sa| |sa ma ea],
           (Prim2SF b) as [sb|sb| |sb mb eb];
    simpl; try reflexivity; try (now rewrite xorb_comm).
  now rewrite xorb_comm, Pos.mul_comm, Z.add_comm.
Qed.

(** *** Zeros *)

Lemma is_zero_spec (v : float) :
  is_zero v = true <-> SF_is_zero (Prim2SF v).
Proof.
  unfold is_zero. rewrite eqb_spec.
  change (Prim2SF zero) with (S754_zero false).
  unfold SFeqb, SFcompare.
  destruct (Prim2SF v) as [s|s| |s m e]; simpl;
    try (destruct s; simpl); split; intros H; auto; try discriminate;
    contradiction.
Qed.

Lemma SF2zero (v : float) : Prim2SF v = S754_zero false -> v = 0%float.
Proof. intros H. apply Prim2SF_inj. now rewrite H. Qed.

(** [+0. + z] is [+0.] for a zero [z] of either sign. *)
Lemma add_zero_zero (z : float) : is_zero z = true -> (0 + z = 0)%float.
Proof.
  rewrite is_zero_spec. intros Hz. apply SF2zero.
  rewrite add_spec, Prim2SF_zero. unfold SF64add.
  destruct (Prim2SF z) as [s| | |]; try contradiction.
  now destruct s.
Qed.

Lemma is_finite_spec (v : float) :
  is_finite v = true ->
  match Prim2SF v with
  | S754_zero _ | S754_finite _ _ _ => True
  | _ => False
  end.
Proof.
  unfold is_finite, is_nan, is_infinity.
  rewrite !eqb_spec, abs_spec.
  change (Prim2SF infinity) with (S754_infinity false).
  unfold SFeqb, SFcompare, SFabs.
  destruct (Prim2SF v) as [s|s| |s m e]; simpl; auto;
    try (destruct s; simpl); discriminate.
Qed.

(** A zero times a finite value is a zero. *)
Lemma mul_zero_finite (z v : float) :
  is_zero z = true -> is_finite v = true -> is_zero (z * v) = true.
Proof.
  rewrite !is_zero_spec. intros Hz Hv. apply is_finite_spec in Hv.
  rewrite mul_spec. unfold SF64mul.
  destruct (Prim2SF z) as [s| | |]; try contradiction.
  destruct (Prim2SF v); try contradiction; exact I.
Qed.

(** Any sum of zeros is a zero. *)
Lemma add_zeros (a b : float) :
  is_zero a = true -> is_zero b = true -> is_zero (a + b) = true.
Proof.
  rewrite !is_zero_spec, add_spec. unfold SF64add.
  destruct (Prim2SF a) as [sa| | |]; try contradiction.
  destruct (Prim2SF b) as [sb| | |]; try contradiction.
  intros _ _. now destruct sa, sb.
Qed.

(** *** Infinities *)


(** ** Lists and runs *)

Lemma replace_nth_app {A} (pre : list A) x y post :
  replace_nth (length pre) y (pre ++ x :: post) = pre ++ y :: post.
Proof. induction pre as [|a pre IH]; simpl; [reflexivity | now rewrite IH]. Qed.

Lemma length_replace_nth {A} (a : list A) :
  forall i x, length (replace_nth i x a) = length a.
Proof.
  induction a as [|y a IH]; intros [|i] x; simpl; try reflexivity.
  now rewrite IH.
Qed.

Lemma Forall_replace_nth {A} (P : A -> Prop) (a : list A) :
  forall i x, P x -> Forall P a -> Forall P (replace_nth i x a).
Proof.
  induction a as [|y a IH]; intros [|i] x Hx H; simpl; auto;
    inversion H; subst; constructor; auto.
Qed.

Lemma nth_error_middle {A} (pre : list A) x post :
  nth_error (pre ++ x :: post) (length pre) = Some x.
Proof. induction pre; simpl; auto. Qed.

Lemma skipn_nth_error {A} (l : list A) j x :
  nth_error l j = Some x -> skipn j l = x :: skipn (S j) l.
Proof.
  revert j; induction l as [|a l IH]; intros [|j] H; simpl in *;
    try discriminate.
  - now inversion H.
  - now apply IH.
Qed.

Lemma map_combine_repeat {A B C D} (f : B * C -> D) (g : A -> B) (u : C)
    (xs : list A) :
  map f (combine (map g xs) (repeat u (length xs)))
  = map (fun x => f (g x, u)) xs.
Proof. induction xs as [|x xs IH]; simpl; [reflexivity | now rewrite IH]. Qed.

Lemma map_combine_maps {A B C D} (f : B * C -> D) (g : A -> B) (h : A -> C)
    (xs : list A) :
  map f (combine (map g xs) (map h xs)) = map (fun x => f (g x, h x)) xs.
Proof. induction xs as [|x xs IH]; simpl; [reflexivity | now rewrite IH]. Qed.

Lemma combine_app_same {A B} (l1 : list A) (l2 : list B) a b :
  length l1 = length l2 ->
  combine (l1 ++ [a]) (l2 ++ [b]) = combine l1 l2 ++ [(a, b)].
Proof.
  revert l2; induction l1 as [|x l1 IH]; intros [|y l2] H; simpl in *;
    try discriminate; [reflexivity|].
  now rewrite IH by lia.
Qed.

Lemma Forall2_length_eq {A B} (P : A -> B -> Prop) l1 l2 :
  Forall2 P l1 l2 -> length l1 = length l2.
Proof. induction 1; simpl; congruence. Qed.

Lemma removelast_map {A B} (f : A -> B) (l : list A) :
  removelast (map f l) = map f (removelast l).
Proof.
  induction l as [|a [|b l] IH]; simpl in *; try reflexivity.
  now rewrite IH.
Qed.

Lemma last_map {A B} (f : A -> B) (l : list A) d :
  l <> [] -> last (map f l) (f d) = f (last l d).
Proof.
  induction l as [|a l IH]; intros H; [contradiction|].
  destruct l as [|b l]; [reflexivity|].
  change (last (map f (b :: l)) (f d) = f (last (b :: l) d)).
  apply IH. discriminate.
Qed.






Lemma regroup_lengths {A} (sizes : list nat) (flat : list A) :
  length flat = list_sum sizes ->
  map (@length A) (History.regroup sizes flat) = sizes.
Proof.
  revert flat; induction sizes as [|n sizes IH]; intros flat H; simpl in *.
  - reflexivity.
  - rewrite length_firstn, IH.
    + f_equal. lia.
    + rewrite length_skipn. lia.
Qed.

Lemma concat_regroup {A} (sizes : list nat) (flat : list A) :
  length flat = list_sum sizes ->
  concat (History.regroup sizes flat) = flat.
Proof.
  revert flat; induction sizes as [|n sizes IH]; intros flat H; simpl in *.
  - destruct flat; [reflexivity | discriminate].
  - rewrite IH.
    + apply firstn_skipn.
    + rewrite length_skipn. lia.
Qed.

Lemma length_rows {A} (h : History.t A) :
  length (concat h) = list_sum (map (@length A) h).
Proof. apply length_concat. Qed.

Lemma regroup_rows {A} (h : History.t A) :
  History.regroup (map (@length A) h) (concat h) = h.
Proof.
  induction h as [|r h IH]; simpl; [reflexivity|].
  rewrite firstn_app, Nat.sub_diag, firstn_all, firstn_O, app_nil_r.
  rewrite skipn_app, Nat.sub_diag, skipn_all, skipn_O. simpl.
  now rewrite IH.
Qed.

Lemma map_regroup {A B} (f : A -> B) (sizes : list nat) :
  forall flat : list A,
    map (map f) (History.regroup sizes flat)
    = History.regroup sizes (map f flat).
Proof.
  induction sizes as [|n sizes IH]; intros flat; simpl; [reflexivity|].
  now rewrite IH, firstn_map, skipn_map.
Qed.


Lemma map_length_map {A B} (f : A -> B) (h : list (list A)) :
  map (@length B) (map (map f) h) = map (@length A) h.
Proof.
  rewrite map_map. apply map_ext. intros l. apply length_map.
Qed.

Lemma removelast_last_eq {A} (l : list A) d :
  l <> [] -> removelast l ++ [last l d] = l.
Proof. intros H. symmetry. now apply app_removelast_last. Qed.

(** ** Rules for methods *)

Section Rules.
Context {S : Type}.

Lemma triple_conseq {A} (P P' : S -> Prop) (Q Q' : S -> outcome A -> Prop)
    (m : M S A) :
  triple P' m Q' ->
  (forall s, P s -> P' s) ->
  (forall s o, Q' s o -> Q s o) ->
  triple P m Q.
Proof. intros H HP HQ s Hs. apply HQ, H, HP, Hs. Qed.

Lemma triple_ret {A} (P : S -> Prop) (Q : S -> outcome A -> Prop) (a : A) :
  (forall s, P s -> Q s (Return a)) -> triple P (ret a) Q.
Proof. intros H s Hs. apply H, Hs. Qed.

Lemma triple_lift {A} (P : S -> Prop) (Q : S -> outcome A -> Prop)
    (o : outcome A) :
  (forall s, P s -> Q s o) -> triple P (lift o) Q.
Proof. intros H s Hs. apply H, Hs. Qed.

Lemma triple_raise {A} (P : S -> Prop) (Q : S -> outcome A -> Prop) e :
  (forall s, P s -> Q s (Raise e)) -> triple P (raise e) Q.
Proof. intros H s Hs. apply H, Hs. Qed.

Lemma triple_modify (P : S -> Prop) (Q : S -> outcome unit -> Prop) f :
  (forall s, P s -> Q (f s) (Return tt)) -> triple P (modify f) Q.
Proof. intros H s Hs. apply H, Hs. Qed.

Lemma triple_assert (P : S -> Prop) (Q : S -> outcome unit -> Prop)
    (c : bool) msg :
  (forall s, P s -> Q s (Return tt)) ->
  (forall s, P s -> Q s (Raise (AssertionError msg))) ->
  triple P (assert c msg) Q.
Proof. intros H1 H2 s Hs. destruct c; [apply H1 | apply H2]; exact Hs. Qed.

Lemma triple_bind {A B} (P : S -> Prop) (R : A -> S -> Prop)
    (Q : S -> outcome B -> Prop) (m : M S A) (k : A -> M S B) :
  triple P m (fun s o => match o with
                         | Return a => R a s
                         | Raise e => Q s (Raise e)
                         end) ->
  (forall a, triple (R a) (k a) Q) ->
  triple P (bind m k) Q.
Proof.
  intros Hm Hk s Hs. specialize (Hm s Hs). unfold bind.
  destruct (m s) as [s' [a|e]]; simpl in Hm.
  - apply Hk, Hm.
  - exact Hm.
Qed.

(** The state a method reads with [self] has what holds at that
    point. *)
Lemma triple_get_bind {B} (P : S -> Prop) (Q : S -> outcome B -> Prop)
    (k : S -> M S B) :
  (forall s0, P s0 -> triple (fun s => s = s0) (k s0) Q) ->
  triple P (bind get k) Q.
Proof. intros H s Hs. exact (H s Hs s eq_refl). Qed.

Lemma triple_zoom {V A} (v : view S V) (P : S -> Prop) (Pv : V -> Prop)
    (Qv : V -> outcome A -> Prop) (Q : S -> outcome A -> Prop) (m : M V A) :
  triple Pv m Qv ->
  (forall s, P s -> Pv (vget v s)) ->
  (forall s x o, P s -> Qv x o -> Q (vset v x s) o) ->
  triple P (zoom v m) Q.
Proof.
  intros Hm HP HQ s Hs. specialize (Hm _ (HP s Hs)). unfold zoom.
  destruct (m (vget v s)) as [x o]. simpl in *. now apply HQ.
Qed.

Lemma steady_bind {A B} (I : S -> Prop) (m : M S A) (k : A -> M S B) :
  steady I m -> (forall a, steady I (k a)) -> steady I (bind m k).
Proof.
  intros Hm Hk. apply triple_bind with (R := fun _ => I).
  - intros s Hs. specialize (Hm s Hs). now destruct (snd (m s)).
  - exact Hk.
Qed.

(** A computation that leaves the state alone. *)
Lemma steady_silent {A} (I : S -> Prop) (m : M S A) :
  (forall s, fst (m s) = s) -> steady I m.
Proof. intros H s Hs. cbv beta. now rewrite H. Qed.

Lemma steady_ret {A} (I : S -> Prop) (a : A) : steady I (ret a).
Proof. now apply steady_silent. Qed.

Lemma steady_lift {A} (I : S -> Prop) (o : outcome A) : steady I (lift o).
Proof. now apply steady_silent. Qed.

Lemma steady_list_getitem {A} (I : S -> Prop) (xs : list A) i :
  steady I (list_getitem xs i).
Proof.
  apply steady_silent. intros s. unfold list_getitem.
  now destruct (nth_error xs i).
Qed.

Lemma steady_for_enumerate_from {A B} (I : S -> Prop)
    (body : nat -> A -> B -> M S B) (xs : list A) :
  (forall i x acc, steady I (body i x acc)) ->
  forall i acc, steady I (for_enumerate_from i xs body acc).
Proof.
  intros Hb. induction xs as [|x xs IH]; intros i acc; simpl.
  - apply steady_ret.
  - apply steady_bind; [apply Hb | intros a; apply IH].
Qed.

Lemma steady_triple {A} (I : S -> Prop) (Q : S -> outcome A -> Prop)
    (m : M S A) :
  steady I m -> (forall s o, I s -> Q s o) -> triple I m Q.
Proof. intros H HQ s Hs. apply HQ, H, Hs. Qed.

End Rules.

Section ExpRules.
Context {L : Libm} {S : Type}.

Lemma steady_exp_cell (I : S -> Prop) (v : cell) : steady I (exp_cell v).
Proof.
  apply steady_silent. intros s. unfold exp_cell.
  destruct v as [x|]; [|reflexivity].
  unfold bind, lift, ret. now destruct (_exp x).
Qed.

(** What [math.exp] returns is not negative. *)
Lemma _exp_not_negative (x r : float) :
  _exp x = Return r -> not_negative r.
Proof.
  unfold _exp. intros H.
  destruct (is_nan (c_exp x) && negb (is_nan x)); [discriminate|].
  destruct (is_infinity (c_exp x) && is_finite x); [discriminate|].
  injection H as <-. apply c_exp_not_negative.
Qed.

Lemma _exp_value (x r : float) : _exp x = Return r -> r = c_exp x.
Proof.
  unfold _exp. intros H.
  destruct (is_nan (c_exp x) && negb (is_nan x)); [discriminate|].
  destruct (is_infinity (c_exp x) && is_finite x); [discriminate|].
  now injection H.
Qed.

Lemma exp_returns_value (x : float) :
  exp_returns x = true -> _exp x = Return (c_exp x).
Proof.
  unfold exp_returns. destruct (_exp x) as [r|e] eqn:E; [|discriminate].
  intros _. f_equal. now apply _exp_value.
Qed.

(** The slot [exp_cell] returns, if it returns, is unwritten or holds a
    value that is not negative; the state is as it was. *)
Lemma triple_exp_cell (P : S -> Prop) (v : cell) :
  triple P (exp_cell v)
    (fun s o => P s /\ match o with
                       | Return c => written not_negative c
                       | Raise _ => True
                       end).
Proof.
  intros s Hs. unfold exp_cell. destruct v as [x|]; simpl.
  - unfold bind, lift, ret. destruct (_exp x) as [r|e] eqn:E; simpl.
    + split; [exact Hs|]. now apply _exp_not_negative with (x := x).
    + now split.
  - now split.
Qed.

Lemma exp_cell_returns (v : cell) (s : S) :
  exp_returns_at v ->
  exp_cell v s = (s, Return (option_map c_exp v)).
Proof.
  destruct v as [x|]; simpl; [|reflexivity].
  intros H. unfold bind, lift, ret. now rewrite exp_returns_value.
Qed.

End ExpRules.

(** *** Rows *)

Lemma steady_getitem {A} (I : list A -> Prop) i : steady I (getitem i).
Proof.
  apply steady_silent. intros a. unfold getitem.
  now destruct (nth_error a i).
Qed.

Lemma steady_setitem_length {A} (n i : nat) (x : A) :
  steady (fun a => length a = n) (setitem i x).
Proof.
  intros a Ha. unfold setitem. destruct (i <? length a); simpl; [|exact Ha].
  now rewrite length_replace_nth.
Qed.

Lemma steady_update_item_length {A} (n i : nat) (f : A -> A) :
  steady (fun a => length a = n) (update_item i f).
Proof.
  apply steady_bind; [apply steady_getitem|].
  intros x. apply steady_setitem_length.
Qed.




Import DeterministicIS.

(** ** Every path through [DeterministicIS._calculate_weights]

    The method appends a snapshot and a run of auxiliary rows, checks the
    lengths of the ledgers, runs three loops over views of the auxiliary
    ledger and ends with one assignment to the weights.  Whatever holds
    of the sampler at every step of the loops, whether they go through or
    raise on the way, holds when the method is left. *)

Section Skeleton.
Context {L : Libm}.
Variable N : nat.
Variables P0 I : t -> Prop.
Variables Jthis Jold : list aux_row -> Prop.
Variable Q : t -> outcome unit -> Prop.

Hypothesis Halloc :
  forall s, P0 s ->
    I {| super := super s;
         proposal_history := proposal_history s ++ [_cp (proposal s)];
         _deltas_targets_evaluated :=
           History.append aux_uninit N (_deltas_targets_evaluated s) |}.
Hypothesis Hraise : forall s e, I s -> Q s (Raise e).
Hypothesis Hthis :
  forall A (m : M (list aux_row) A),
    steady Jthis m -> steady I (zoom this_deltas_targets m).
Hypothesis Hold :
  forall A (m : M (list aux_row) A),
    steady Jold m -> steady I (zoom old_deltas_targets m).
Hypothesis Htargets :
  forall (f : point -> float) (samples : list (option point)),
    steady Jthis
      (for_enumerate samples (fun i sample _ =>
         v <- exp_cell (option_map f sample) ;;
         update_item i (with_target_value v)) tt).
Hypothesis Hzero : steady Jthis (modify (map (with_delta (Some 0%float)))).
Hypothesis Hdeltas :
  forall (samples : list (option point)) (h : History.t sample_row)
         (snapshots : list Proposal),
    steady Jthis
      (for_enumerate samples (fun i_sample sample i_run =>
         for_enumerate h (fun i_run i_samples _ =>
           row <- getitem i_sample ;;
           q <- list_getitem snapshots i_run ;;
           e <- exp_cell (option_map (evaluate q) sample) ;;
           setitem i_sample (add_to_delta (length i_samples) e row) ;;
           ret (Some i_run)) i_run) None).
Hypothesis Hcorrection :
  forall (samples : list (option point)) (snapshots : list Proposal)
         (j n : nat),
    steady Jold
      (for_enumerate samples (fun i_sample sample _ =>
         row <- getitem i_sample ;;
         q <- list_getitem snapshots j ;;
         e <- exp_cell (option_map (evaluate q) sample) ;;
         setitem i_sample (add_to_delta n e row)) tt).
Hypothesis Hweights :
  forall s1, I s1 ->
    triple (fun s => s = s1)
      (zoom all_weights_samples
         (assign_weights
            (map (mixture_weight (length (vget all_weights_samples s1)))
               (vget all_deltas_targets s1))))
      Q.

Lemma triple_then {A} (m : M t A) (k : A -> M t unit) :
  steady I m -> (forall a, triple I (k a) Q) -> triple I (bind m k) Q.
Proof.
  intros Hm Hk. apply triple_bind with (R := fun _ => I); [|exact Hk].
  intros s Hs. specialize (Hm s Hs). cbv beta in Hm.
  destruct (snd (m s)); [exact Hm | now apply Hraise].
Qed.

Lemma steady_assert (c : bool) msg : steady I (@assert t c msg).
Proof. apply steady_silent. intros s. now destruct c. Qed.

Lemma _calculate_weights_triple : triple P0 (_calculate_weights N) Q.
Proof.
  unfold _calculate_weights.
  apply triple_bind with
    (R := fun _ s =>
            exists s', P0 s'
              /\ s = vset proposal_history_view
                       (proposal_history s' ++ [_cp (proposal s')]) s').
  { intros s Hs. simpl. now exists s. }
  intros _. apply triple_bind with (R := fun _ => I).
  { intros s (s' & Hs' & ->). unfold zoom, modify. simpl. now apply Halloc. }
  intros _. apply triple_get_bind. intros self Hself.
  apply triple_conseq with (P' := I) (Q' := Q); auto.
  2:{ now intros s ->. }
  apply triple_then; [apply steady_assert|]. intros _.
  apply triple_then; [apply steady_assert|]. intros _.
  apply triple_then; [apply Hthis, Htargets|]. intros _.
  apply triple_then; [apply Hthis, Hzero|]. intros _.
  apply triple_then; [apply Hthis, Hdeltas|]. intros i_run.
  apply triple_then.
  { destruct i_run; [apply steady_assert|].
    now apply steady_silent. }
  intros _.
  apply triple_then.
  { destruct (negb _); [apply Hold, Hcorrection | apply steady_ret]. }
  intros _. apply triple_get_bind. exact Hweights.
Qed.

End Skeleton.

(** *** The structure of the ledgers *)

Lemma lengths_snoc {A} (h : History.t A) (sizes : list nat) (n : nat) :
  map (@length A) h = sizes ++ [n] ->
  h <> []
  /\ map (@length A) (removelast h) = sizes
  /\ length (last h []) = n.
Proof.
  intros H.
  assert (Hne : h <> []) by (intros ->; now destruct sizes).
  split; [exact Hne|].
  rewrite <- (removelast_last_eq [] Hne) in H at 1.
  rewrite map_app in H. simpl in H.
  apply app_inj_tail in H. exact H.
Qed.

Section Frame.
Context {L : Libm}.
Variables (N : nat) (s0 : t).

Let framed := framed N s0.

Lemma framed_frame s o : framed s -> calculate_weights_frame N s0 s o.
Proof.
  intros (Hs & Hq & Ha). unfold calculate_weights_frame, proposal, target,
    history. rewrite Hs. repeat split; auto.
Qed.

Lemma framed_this {A} (m : M (list aux_row) A) :
  steady (fun a => length a = N) m ->
  steady framed (zoom this_deltas_targets m).
Proof.
  intros Hm.
  apply triple_zoom with (Pv := fun a => length a = N)
                         (Qv := fun a _ => length a = N); [exact Hm| |].
  - intros s (_ & _ & Ha). simpl. now apply lengths_snoc in Ha.
  - intros s x o (Hs & Hq & Ha) Hx. apply lengths_snoc in Ha.
    destruct Ha as (_ & Hr & _).
    repeat split; simpl; auto.
    rewrite map_app, Hr. simpl. now rewrite Hx.
Qed.

Lemma framed_old {A} (m : M (list aux_row) A) :
  steady (fun a =>
            length a = list_sum (map (@length _)
                                   (_deltas_targets_evaluated s0))) m ->
  steady framed (zoom old_deltas_targets m).
Proof.
  intros Hm.
  eapply triple_zoom with (Qv := fun a _ => length a = _); [exact Hm| |].
  - intros s (_ & _ & Ha). simpl. apply lengths_snoc in Ha.
    destruct Ha as (_ & Hr & _). now rewrite length_rows, Hr.
  - intros s x o (Hs & Hq & Ha) Hx. apply lengths_snoc in Ha.
    destruct Ha as (_ & Hr & Hl).
    repeat split; simpl; auto.
    rewrite map_app, Hr, regroup_lengths by exact Hx.
    simpl. now rewrite Hl.
Qed.

Lemma with_weight_coords (vals : list cell) :
  forall rows : list sample_row,
    map coords
      (map (fun vr => with_weight (fst vr) (snd vr)) (combine vals rows))
    = firstn (length vals) (map coords rows).
Proof.
  induction vals as [|v vals IH]; intros [|r rows]; simpl; try reflexivity.
  now rewrite IH.
Qed.

Lemma assign_weights_coords (vals : list cell) (h : History.t sample_row) :
  map (map coords)
    (History.regroup (map (@length _) h)
       (fst (assign_weights vals (concat h))))
  = map (map coords) h.
Proof.
  rewrite map_regroup.
  assert (E : map coords (fst (assign_weights vals (concat h)))
              = map coords (concat h)).
  { unfold assign_weights.
    destruct (Nat.eqb_spec (length vals) (length (concat h))) as [E|_];
      [|reflexivity].
    simpl. rewrite with_weight_coords, E, <- (length_map coords).
    apply firstn_all. }
  rewrite E, concat_map, <- (map_length_map coords h).
  apply regroup_rows.
Qed.

Lemma assign_weights_raises (vals : list cell) (rows : list sample_row) e :
  snd (assign_weights vals rows) = Raise e ->
  fst (assign_weights vals rows) = rows.
Proof.
  unfold assign_weights.
  destruct (length vals =? length rows); [discriminate | reflexivity].
Qed.

Lemma framed_weights (vals : list cell) (s1 : t) :
  framed s1 ->
  triple (fun s => s = s1) (zoom all_weights_samples (assign_weights vals))
    (calculate_weights_frame N s0).
Proof.
  intros (Hs & Hq & Ha) s ->. unfold zoom.
  cbn [vget vset all_weights_samples vcompose history_view super_view
       ImportanceSampler.history_view History.all].
  destruct (assign_weights vals
              (concat (ImportanceSampler.history (super s1))))
    as [rows o] eqn:E.
  cbn [fst snd].
  unfold calculate_weights_frame, proposal, target, history.
  cbn [super proposal_history _deltas_targets_evaluated
       ImportanceSampler.proposal ImportanceSampler.target
       ImportanceSampler.rng ImportanceSampler.history].
  rewrite Hs in *.
  repeat split; auto.
  - replace rows with (fst (assign_weights vals
                              (concat (ImportanceSampler.history (super s0)))))
      by now rewrite E.
    apply assign_weights_coords.
  - intros e ->.
    replace rows with (concat (ImportanceSampler.history (super s0))).
    + rewrite regroup_rows. now destruct (super s0).
    + symmetry.
      replace rows with (fst (assign_weights vals
                                (concat (ImportanceSampler.history
                                           (super s0)))))
        by now rewrite E.
      apply assign_weights_raises with (e := e). now rewrite E.
Qed.

Ltac steady_rows :=
  repeat first
    [ apply steady_ret
    | apply steady_getitem
    | apply steady_list_getitem
    | apply steady_exp_cell
    | apply steady_setitem_length
    | apply steady_update_item_length
    | apply steady_for_enumerate_from; intros
    | apply steady_bind; [|intros] ].

(** Every call of [_calculate_weights] frames the sampler, whatever the
    state it starts from and however it ends. *)
Lemma _calculate_weights_frame :
  calculate_weights_frame N s0
    (fst (_calculate_weights N s0)) (snd (_calculate_weights N s0)).
Proof.
  apply (@_calculate_weights_triple L N (fun s => s = s0) framed
           (fun a => length a = N)
           (fun a => length a
                     = list_sum (map (@length _)
                                   (_deltas_targets_evaluated s0)))
           (calculate_weights_frame N s0)); auto.
  - intros s ->. repeat split; simpl.
    unfold History.append. rewrite map_app. simpl.
    now rewrite repeat_length.
  - intros s e. apply framed_frame.
  - intros A m. apply framed_this.
  - intros A m. apply framed_old.
  - intros f samples. unfold for_enumerate. steady_rows.
  - intros a Ha. simpl. now rewrite length_map.
  - intros samples h snapshots. unfold for_enumerate. steady_rows.
  - intros samples snapshots j n. unfold for_enumerate. steady_rows.
  - intros s1 Hs1. now apply framed_weights.
Qed.

End Frame.

(** ** Loops that write a ledger row by row *)

Lemma update_item_middle {A} (f : A -> A) (pre : list A) x post :
  update_item (length pre) f (pre ++ x :: post)
  = (pre ++ f x :: post, Return tt).
Proof.
  unfold update_item, bind, getitem, setitem.
  rewrite nth_error_middle.
  assert (H : (length pre <? length (pre ++ x :: post)) = true).
  { apply Nat.ltb_lt. rewrite length_app. simpl. lia. }
  rewrite H, replace_nth_app. reflexivity.
Qed.

Lemma for_enumerate_from_ext_in {S A B}
    (body1 body2 : nat -> A -> B -> M S B) (xs : list A) :
  (forall i x acc s, In x xs -> body1 i x acc s = body2 i x acc s) ->
  forall i acc s,
    for_enumerate_from i xs body1 acc s = for_enumerate_from i xs body2 acc s.
Proof.
  induction xs as [|x xs IH]; intros E i acc s; simpl; [reflexivity|].
  unfold bind. rewrite E by now left.
  destruct (body2 i x acc s) as [s' [a|e]]; auto.
  apply IH. intros. apply E. now right.
Qed.

Lemma for_enumerate_from_ext {S A B} (body1 body2 : nat -> A -> B -> M S B)
    (xs : list A) :
  (forall i x acc s, body1 i x acc s = body2 i x acc s) ->
  forall i acc s,
    for_enumerate_from i xs body1 acc s = for_enumerate_from i xs body2 acc s.
Proof. intros E. apply for_enumerate_from_ext_in. intros. apply E. Qed.

(** A loop whose step [i] rewrites row [i] leaves the rows before and
    after the enumerated range alone. *)
Lemma for_enumerate_rows {X A} (f : X -> A -> A) (xs : list X) :
  forall (pre mid post : list A),
    length mid = length xs ->
    for_enumerate_from (length pre) xs
      (fun i x _ => update_item i (f x)) tt (pre ++ mid ++ post)
    = (pre ++ map (fun p => f (fst p) (snd p)) (combine xs mid) ++ post,
       Return tt).
Proof.
  induction xs as [|x xs IH]; intros pre mid post H.
  - destruct mid; [reflexivity | discriminate].
  - destruct mid as [|m mid]; [discriminate|].
    simpl. unfold bind at 1. rewrite update_item_middle.
    replace (pre ++ f x m :: mid ++ post) with ((pre ++ [f x m]) ++ mid ++ post)
      by now rewrite <- app_assoc.
    replace (S (length pre)) with (length (pre ++ [f x m]))
      by (rewrite length_app; simpl; lia).
    rewrite IH by (simpl in H; lia).
    now rewrite <- app_assoc.
Qed.

Lemma assign_coords_uninit (points : list point) :
  assign_coords points (repeat sample_uninit (length points))
  = (map (fun x => with_coords x sample_uninit) points, Return tt).
Proof.
  unfold assign_coords. rewrite repeat_length, Nat.eqb_refl.
  f_equal.
  rewrite <- (map_id points) at 1.
  now rewrite map_combine_repeat.
Qed.

Lemma option_map_map {A B C} (f : A -> B) (g : B -> C) (o : option A) :
  option_map g (option_map f o) = option_map (fun x => g (f x)) o.
Proof. now destruct o. Qed.

Lemma coords_replace_nth (rows : list sample_row) :
  forall i row w,
    nth_error rows i = Some row ->
    map coords (replace_nth i (with_weight w row) rows) = map coords rows.
Proof.
  induction rows as [|r rows IH]; intros [|i] row w E;
    simpl in *; try discriminate.
  - now injection E as <-.
  - f_equal. now apply IH.
Qed.

(** ** The plain sampler *)

Lemma length_drawn self N : length (drawn self N) = N.
Proof. apply propose_count. Qed.

Lemma _get_samples_spec (N : nat) (trace : bool)
    (self : ImportanceSampler.t) :
  ImportanceSampler._get_samples N trace self
  = ({| ImportanceSampler.proposal := ImportanceSampler.proposal self;
        ImportanceSampler.rng := next_rng self N;
        ImportanceSampler.target := ImportanceSampler.target self;
        ImportanceSampler.history :=
          ImportanceSampler.history self
          ++ [map (fun x => with_coords x sample_uninit) (drawn self N)] |},
     Return (if trace then Some (origin self N) else None)).
Proof.
  unfold ImportanceSampler._get_samples, next_rng, drawn, origin.
  pose proof (propose_count (ImportanceSampler.proposal self) N
                (ImportanceSampler.rng self)) as Hlen.
  unfold bind, zoom, modify, get, put, ret.
  cbn [vget vset ImportanceSampler.history_view ImportanceSampler.this_run
       vcompose History.last_run
       ImportanceSampler.proposal ImportanceSampler.rng
       ImportanceSampler.target ImportanceSampler.history
       ImportanceSampler.with_rng].
  destruct (propose (ImportanceSampler.proposal self) N
              (ImportanceSampler.rng self)) as [[points orig] g].
  simpl in Hlen. subst N.
  cbn [ImportanceSampler.proposal ImportanceSampler.rng
       ImportanceSampler.target ImportanceSampler.history
       ImportanceSampler.with_rng fst snd].
  unfold History.append. rewrite last_last.
  rewrite assign_coords_uninit.
  rewrite removelast_last. reflexivity.
Qed.

Section PlainLoop.
Context {L : Libm}.
Variable g : point -> float.

(** The loop of [ImportanceSampler._calculate_weights] where [math.exp]
    returns at every row. *)
Lemma for_range_weights :
  forall (mid pre post : list sample_row) k,
    Forall (fun row => exp_returns_at (option_map g (coords row))) mid ->
    for_enumerate_from k (seq (length pre) (length mid))
      (fun _ i _ =>
         row <- getitem i ;;
         w <- exp_cell (option_map g (coords row)) ;;
         setitem i (with_weight w row)) tt (pre ++ mid ++ post)
    = (pre
       ++ map (fun row =>
                 with_weight (option_map (fun x => c_exp (g x)) (coords row))
                   row) mid
       ++ post,
       Return tt).
Proof.
  induction mid as [|m mid IH]; intros pre post k H; [reflexivity|].
  inversion H as [|? ? Hm H']; subst.
  simpl. unfold bind at 1. unfold bind at 1, getitem at 1.
  rewrite nth_error_middle.
  unfold bind at 1. rewrite exp_cell_returns by exact Hm.
  unfold setitem.
  assert (E : (length pre <? length (pre ++ m :: mid ++ post)) = true).
  { apply Nat.ltb_lt. rewrite length_app. simpl. lia. }
  rewrite E, replace_nth_app, option_map_map.
  set (m' := with_weight _ m).
  replace (pre ++ m' :: mid ++ post) with ((pre ++ [m']) ++ mid ++ post)
    by now rewrite <- app_assoc.
  replace (S (length pre)) with (length (pre ++ [m']))
    by (rewrite length_app; simpl; lia).
  rewrite IH by exact H'. now rewrite <- app_assoc.
Qed.

(** The same loop on every path: the rows keep their number and their
    coordinates, and every weight written is a value [math.exp]
    returned. *)
Lemma for_range_weights_steady (n : list (option point)) (k : nat) :
  steady (fun rows : list sample_row =>
            map coords rows = n
            /\ Forall (fun r => written not_negative (weight r)) rows)
    (for_range k (fun i =>
       row <- getitem i ;;
       w <- exp_cell (option_map g (coords row)) ;;
       setitem i (with_weight w row))).
Proof.
  unfold for_range, for_enumerate.
  apply steady_for_enumerate_from. intros _ i _.
  apply triple_bind with
    (R := fun row s =>
            (map coords s = n
             /\ Forall (fun r => written not_negative (weight r)) s)
            /\ nth_error s i = Some row).
  { intros rows HI. unfold getitem.
    destruct (nth_error rows i) eqn:E; simpl; auto. }
  intros row. apply triple_bind with
    (R := fun w s =>
            ((map coords s = n
              /\ Forall (fun r => written not_negative (weight r)) s)
             /\ nth_error s i = Some row)
            /\ written not_negative w).
  { eapply triple_conseq;
      [apply triple_exp_cell | intros s Hs; exact Hs |].
    intros s [w|e] [Hs Hv]; simpl; auto. apply Hs. }
  intros w rows [[[Hc Hw] E] Hv]. unfold setitem.
  destruct (i <? length rows); simpl; [|auto].
  split.
  - rewrite <- Hc. now apply coords_replace_nth.
  - now apply Forall_replace_nth.
Qed.

End PlainLoop.

Section PlainSampler.
Context {L : Libm}.
Import ImportanceSampler.

Lemma ImportanceSampler_calculate_weights_spec (self : t)
    (rows : list sample_row) :
  Forall (fun row =>
            exp_returns_at
              (option_map
                 (fun x => (target self x - evaluate (proposal self) x)%float)
                 (coords row))) rows ->
  _calculate_weights (length rows)
    {| proposal := proposal self; rng := rng self; target := target self;
       history := history self ++ [rows] |}
  = ({| proposal := proposal self; rng := rng self; target := target self;
        history :=
          history self
          ++ [map (fun row =>
                     with_weight
                       (option_map
                          (importance_weight (target self) (proposal self))
                          (coords row))
                       row)
                rows] |},
     Return tt).
Proof.
  intros Hsafe. unfold _calculate_weights.
  unfold bind at 1, get at 1.
  unfold zoom, this_run, vcompose. simpl vget. simpl vset.
  rewrite last_last, removelast_last.
  unfold for_range, for_enumerate.
  pose proof (@for_range_weights L
    (fun x => (target self x - evaluate (proposal self) x)%float)
    rows [] [] 0 Hsafe) as E.
  simpl in E. rewrite app_nil_r in E.
  cbn [target proposal]. rewrite E. rewrite app_nil_r.
  reflexivity.
Qed.

(** A run of the plain sampler in which [math.exp] does not raise. *)
Lemma ImportanceSampler_run_spec (N : nat) (trace : bool) (self : t) :
  ImportanceSampler_no_overflow self N = true ->
  run N trace self
  = ({| proposal := proposal self;
        rng := next_rng self N;
        target := target self;
        history := history self ++ [map (weighted self) (drawn self N)] |},
     Return (if trace then Some (origin self N) else None)).
Proof.
  intros Hsafe. unfold run, run_method.
  pose proof (length_drawn self N) as Hlen.
  set (rows := map (fun x => with_coords x sample_uninit) (drawn self N)).
  assert (Hrows : length rows = N) by (unfold rows; now rewrite length_map).
  pose proof (@ImportanceSampler_calculate_weights_spec
    {| proposal := proposal self; rng := next_rng self N;
       target := target self; history := history self |} rows) as C.
  simpl in C. rewrite Hrows in C.
  assert (E : map (fun row => with_weight
             (option_map (importance_weight (target self) (proposal self))
                (coords row)) row) rows
           = map (weighted self) (drawn self N)).
  { unfold rows. rewrite map_map. apply map_ext. intros x. reflexivity. }
  rewrite E in C.
  assert (Hs : Forall (fun row =>
            exp_returns_at
              (option_map
                 (fun x => (target self x - evaluate (proposal self) x)%float)
                 (coords row))) rows).
  { unfold rows. apply Forall_forall. intros row Hr.
    apply in_map_iff in Hr. destruct Hr as (x & <- & Hx). simpl.
    unfold ImportanceSampler_no_overflow in Hsafe.
    rewrite forallb_forall in Hsafe. apply Hsafe.
    unfold ImportanceSampler_exp_arguments.
    apply in_map_iff. now exists x. }
  specialize (C Hs).
  destruct trace; unfold bind at 1; rewrite _get_samples_spec; fold rows;
    unfold bind at 1; rewrite C; reflexivity.
Qed.

(** The weights of a run on every path: the rows of the run keep their
    coordinates and get weights that are not negative, and nothing else
    is touched. *)
Lemma ImportanceSampler_calculate_weights_frame (self : t)
    (rows : list sample_row) :
  Forall (fun r => written not_negative (weight r)) rows ->
  exists new_run o,
    _calculate_weights (length rows)
      {| proposal := proposal self; rng := rng self;
         target := target self; history := history self ++ [rows] |}
    = ({| proposal := proposal self; rng := rng self;
          target := target self; history := history self ++ [new_run] |}, o)
    /\ map coords new_run = map coords rows
    /\ Forall (fun r => written not_negative (weight r)) new_run.
Proof.
  intros Hw.
  unfold _calculate_weights. unfold bind at 1, get at 1.
  unfold zoom, this_run, vcompose. simpl vget. simpl vset.
  rewrite last_last, removelast_last. cbn [target proposal].
  pose proof (@for_range_weights_steady L
                (fun x => (target self x - evaluate (proposal self) x)%float)
                (map coords rows) (length rows) rows (conj eq_refl Hw)) as H.
  cbv beta in H.
  match type of H with
  | map coords (fst ?c) = _ /\ _ => destruct c as [rows' o]
  end.
  exists rows', o. split; [reflexivity | exact H].
Qed.

(** A run of the plain sampler on every path: one run is appended, it
    holds the points drawn, the weights written to it are not negative,
    and nothing else changes but the generator. *)
Lemma ImportanceSampler_run_frame (N : nat) (trace : bool) (self : t) :
  let self' := fst (run N trace self) in
  proposal self' = proposal self
  /\ target self' = target self
  /\ rng self' = next_rng self N
  /\ exists new_run,
       history self' = history self ++ [new_run]
       /\ map coords new_run = map Some (drawn self N)
       /\ Forall (fun r => written not_negative (weight r)) new_run.
Proof.
  cbv zeta.
  set (rows := map (fun x => with_coords x sample_uninit) (drawn self N)).
  assert (Hc : map coords rows = map Some (drawn self N)).
  { unfold rows. rewrite map_map. reflexivity. }
  assert (Hn : length rows = N)
    by (unfold rows; now rewrite length_map, length_drawn).
  assert (Hw : Forall (fun r => written not_negative (weight r)) rows).
  { unfold rows. apply Forall_forall. intros r Hr.
    apply in_map_iff in Hr. now destruct Hr as (x & <- & _). }
  destruct (@ImportanceSampler_calculate_weights_frame
    {| proposal := proposal self; rng := next_rng self N;
       target := target self; history := history self |} rows Hw)
    as (new_run & o & F & Hnew & Hnn).
  simpl in F. rewrite Hn in F. rewrite Hc in Hnew.
  assert (E : fst (run N trace self)
              = {| proposal := proposal self; rng := next_rng self N;
                   target := target self;
                   history := history self ++ [new_run] |}).
  { unfold run, run_method.
    destruct trace; unfold bind at 1; rewrite _get_samples_spec;
      fold rows; unfold bind at 1; rewrite F; now destruct o. }
  rewrite E. do 3 (split; [reflexivity|]). now exists new_run.
Qed.

End PlainSampler.

(** ** The loops of [DeterministicIS._calculate_weights] *)

Section Loops.
Context {L : Libm}.

(** Where [math.exp] returns, a step of the loops over the deltas is a
    write to one row. *)
Lemma delta_step_safe (Q : list Proposal) (sample : option point)
    (i_sample n j : nat) {B} (b : B) (rows : list aux_row) :
  (forall q, In q Q -> exp_returns_at (option_map (evaluate q) sample)) ->
  (row <- getitem i_sample ;;
   q <- list_getitem Q j ;;
   e <- exp_cell (option_map (evaluate q) sample) ;;
   setitem i_sample (add_to_delta n e row) ;;
   ret b) rows
  = (q <- list_getitem Q j ;;
     update_item i_sample (add_density n q sample) ;;
     ret b) rows.
Proof.
  intros Hsafe. unfold update_item, bind, getitem, list_getitem.
  destruct (nth_error rows i_sample) as [row|] eqn:Er;
    destruct (nth_error Q j) as [q|] eqn:Eq; try reflexivity.
  - unfold ret at 1. rewrite exp_cell_returns
      by (apply Hsafe; eapply nth_error_In, Eq).
    unfold ret at 2. rewrite Er. unfold add_density.
    now rewrite option_map_map.
  - unfold ret at 1. now rewrite Er.
Qed.

Lemma correction_step_safe (Q : list Proposal) (sample : option point)
    (i_sample n j : nat) (rows : list aux_row) :
  (forall q, nth_error Q j = Some q ->
     exp_returns_at (option_map (evaluate q) sample)) ->
  (row <- getitem i_sample ;;
   q <- list_getitem Q j ;;
   e <- exp_cell (option_map (evaluate q) sample) ;;
   setitem i_sample (add_to_delta n e row)) rows
  = (q <- list_getitem Q j ;;
     update_item i_sample (add_density n q sample)) rows.
Proof.
  intros Hsafe. unfold update_item, bind, getitem, list_getitem.
  destruct (nth_error rows i_sample) as [row|] eqn:Er;
    destruct (nth_error Q j) as [q|] eqn:Eq; try reflexivity.
  - unfold ret at 1. rewrite exp_cell_returns by (now apply Hsafe).
    unfold ret at 1. rewrite Er. unfold add_density.
    now rewrite option_map_map.
  - unfold ret at 1. now rewrite Er.
Qed.

Lemma target_step_safe (f : point -> float) (sample : option point)
    (i : nat) (rows : list aux_row) :
  exp_returns_at (option_map f sample) ->
  (v <- exp_cell (option_map f sample) ;;
   update_item i (with_target_value v)) rows
  = update_item i
      (with_target_value (option_map (fun x => c_exp (f x)) sample)) rows.
Proof.
  intros Hsafe. unfold bind at 1. rewrite exp_cell_returns by exact Hsafe.
  now rewrite option_map_map.
Qed.

Lemma inner_loop_written (Q : list Proposal) (sample : option point) {A}
    (runs : list (list A)) :
  forall j acc (pre : list aux_row) row post,
    j + length runs <= length Q ->
    for_enumerate_from j runs
      (fun i_run i_samples _ =>
         q <- list_getitem Q i_run ;;
         update_item (length pre) (add_density (length i_samples) q sample) ;;
         ret (Some i_run)) acc (pre ++ row :: post)
    = (pre ++ fold_left (accumulate sample)
                 (combine (map (@length A) runs) (skipn j Q)) row :: post,
       Return (last_index j runs acc)).
Proof.
  induction runs as [|r runs IH]; intros j acc pre row post H.
  - reflexivity.
  - simpl in H. simpl for_enumerate_from.
    destruct (nth_error Q j) as [q|] eqn:Eq.
    2:{ apply nth_error_None in Eq. lia. }
    unfold bind at 1. unfold list_getitem. rewrite Eq.
    unfold bind at 1. unfold ret at 1.
    unfold bind at 1. rewrite update_item_middle.
    unfold ret at 1.
    rewrite IH by lia.
    rewrite (skipn_nth_error _ _ Eq). simpl.
    f_equal. f_equal.
    destruct runs; simpl; f_equal; lia.
Qed.

Lemma inner_loop_ok (Q : list Proposal) (sample : option point) {A}
    (runs : list (list A)) :
  (forall q, In q Q -> exp_returns_at (option_map (evaluate q) sample)) ->
  forall j acc (pre : list aux_row) row post,
    j + length runs <= length Q ->
    for_enumerate_from j runs
      (fun i_run i_samples _ =>
         row <- getitem (length pre) ;;
         q <- list_getitem Q i_run ;;
         e <- exp_cell (option_map (evaluate q) sample) ;;
         setitem (length pre) (add_to_delta (length i_samples) e row) ;;
         ret (Some i_run)) acc (pre ++ row :: post)
    = (pre ++ fold_left (accumulate sample)
                 (combine (map (@length A) runs) (skipn j Q)) row :: post,
       Return (last_index j runs acc)).
Proof.
  intros Hsafe j acc pre row post H.
  rewrite <- (inner_loop_written Q sample runs j acc pre row post H).
  apply for_enumerate_from_ext. intros i x a s.
  now apply delta_step_safe.
Qed.

Lemma inner_loop_short (Q : list Proposal) (sample : option point) {A}
    (runs : list (list A)) (i_sample : nat) :
  (forall q, In q Q -> exp_returns_at (option_map (evaluate q) sample)) ->
  forall j acc (rows : list aux_row),
    j <= length Q < j + length runs ->
    snd (for_enumerate_from j runs
      (fun i_run i_samples _ =>
         row <- getitem i_sample ;;
         q <- list_getitem Q i_run ;;
         e <- exp_cell (option_map (evaluate q) sample) ;;
         setitem i_sample (add_to_delta (length i_samples) e row) ;;
         ret (Some i_run)) acc rows)
    = Raise IndexError.
Proof.
  intros Hsafe j acc rows H.
  rewrite (for_enumerate_from_ext _
             (fun i_run (i_samples : list A) (_ : option nat) =>
                q <- list_getitem Q i_run ;;
                update_item i_sample
                  (add_density (length i_samples) q sample) ;;
                ret (Some i_run)))
    by (intros; now apply delta_step_safe).
  revert j acc rows H.
  induction runs as [|r runs IH]; intros j acc rows H; simpl in H; [lia|].
  simpl for_enumerate_from.
  unfold bind at 1. unfold list_getitem.
  destruct (nth_error Q j) as [q|] eqn:Eq.
  - assert (j < length Q) by (apply nth_error_Some; congruence).
    unfold bind at 1. unfold ret at 1.
    unfold bind at 1.
    destruct (update_item i_sample _ rows) as [rows' [[]|e]] eqn:Eu.
    + unfold ret at 1. apply IH. lia.
    + simpl.
      unfold update_item, bind, getitem, setitem in Eu.
      destruct (nth_error rows i_sample); [|now inversion Eu].
      destruct (i_sample <? length rows); now inversion Eu.
  - reflexivity.
Qed.

Lemma outer_loop_ok (Q : list Proposal) {A} (runs : list (list A))
    (samples : list (option point)) :
  length runs <= length Q ->
  Forall (fun sample =>
            forall q, In q Q ->
              exp_returns_at (option_map (evaluate q) sample)) samples ->
  forall acc (pre mid post : list aux_row),
    length mid = length samples ->
    for_enumerate_from (length pre) samples
      (fun i_sample sample i_run =>
         for_enumerate runs
           (fun i_run i_samples _ =>
              row <- getitem i_sample ;;
              q <- list_getitem Q i_run ;;
              e <- exp_cell (option_map (evaluate q) sample) ;;
              setitem i_sample (add_to_delta (length i_samples) e row) ;;
              ret (Some i_run)) i_run) acc (pre ++ mid ++ post)
    = (pre ++ map (fun p => fold_left (accumulate (fst p))
                     (combine (map (@length A) runs) Q) (snd p))
                (combine samples mid) ++ post,
       Return (match samples with
               | [] => acc
               | _ :: _ => last_index 0 runs acc
               end)).
Proof.
  intros HQ Hsafe.
  induction Hsafe as [|x samples Hx _ IH]; intros acc pre mid post H.
  - destruct mid; [reflexivity | discriminate].
  - destruct mid as [|m mid]; [discriminate|].
    simpl for_enumerate_from. unfold bind at 1. unfold for_enumerate at 1.
    simpl app at 1.
    rewrite inner_loop_ok by (auto; simpl; lia).
    simpl skipn.
    set (m' := fold_left _ _ m).
    replace (pre ++ m' :: mid ++ post) with ((pre ++ [m']) ++ mid ++ post)
      by now rewrite <- app_assoc.
    replace (S (length pre)) with (length (pre ++ [m']))
      by (rewrite length_app; simpl; lia).
    rewrite IH by (simpl in H; lia).
    rewrite <- app_assoc. simpl. f_equal. f_equal.
    destruct samples; [reflexivity|].
    destruct runs; reflexivity.
Qed.

Lemma outer_loop_short (Q : list Proposal) {A} (runs : list (list A))
    (samples : list (option point)) :
  length Q < length runs ->
  samples <> [] ->
  Forall (fun sample =>
            forall q, In q Q ->
              exp_returns_at (option_map (evaluate q) sample)) samples ->
  forall i acc (rows : list aux_row),
    snd (for_enumerate_from i samples
      (fun i_sample sample i_run =>
         for_enumerate runs
           (fun i_run i_samples _ =>
              row <- getitem i_sample ;;
              q <- list_getitem Q i_run ;;
              e <- exp_cell (option_map (evaluate q) sample) ;;
              setitem i_sample (add_to_delta (length i_samples) e row) ;;
              ret (Some i_run)) i_run) acc rows)
    = Raise IndexError.
Proof.
  intros HQ Hne Hsafe i acc rows.
  destruct samples as [|x samples]; [contradiction|].
  inversion Hsafe as [|? ? Hx _]; subst.
  simpl for_enumerate_from. unfold bind at 1. unfold for_enumerate at 1.
  pose proof (@inner_loop_short Q x _ runs i Hx 0 acc rows
                ltac:(simpl; lia)) as S.
  match type of S with
  | snd ?c = _ => destruct c as [buf o]
  end.
  simpl in S. subst o. reflexivity.
Qed.

End Loops.

(** ** One call of [DeterministicIS._calculate_weights] *)

Section Step.
Context {L : Libm}.
Variables (self : t) (rows : list sample_row).

Let H := history self.
Let A := _deltas_targets_evaluated self.
Let Q := proposal_history self.
Let q := proposal self.
Let N := length rows.

Lemma _calculate_weights_rows_differ :
  length (concat H) <> length (concat A) ->
  _calculate_weights N (sampled self rows)
  = (allocated self rows, Raise (AssertionError inconsistency_message)).
Proof.
  intros Hne. unfold _calculate_weights.
  unfold bind at 1, modify at 1.
  unfold bind at 1, zoom at 1, modify at 1.
  unfold bind at 1, get at 1.
  cbn [vget vset proposal_history_view deltas_targets_view
       old_weights_samples old_deltas_targets vcompose history_view
       super_view ImportanceSampler.history_view History.old
       sampled super proposal_history _deltas_targets_evaluated
       ImportanceSampler.history proposal ImportanceSampler.proposal].
  unfold History.append. rewrite !removelast_last.
  fold H A.
  destruct (Nat.eqb_spec (length (concat H)) (length (concat A))) as [E|_];
    [contradiction|].
  reflexivity.
Qed.

(** [math.exp] returns at the target of the new samples, at every
    snapshot at the new samples, and at the new proposal at the old
    samples. *)
Hypothesis target_returns :
  Forall (fun sample => exp_returns_at (option_map (target self) sample))
    (map coords rows).
Hypothesis snapshots_return :
  Forall (fun sample =>
            forall q', In q' (Q ++ [_cp q]) ->
              exp_returns_at (option_map (evaluate q') sample))
    (map coords rows).
Hypothesis correction_returns :
  Forall (fun sample => exp_returns_at (option_map (evaluate q) sample))
    (map coords (concat H)).

Lemma targets_loop (buf : list aux_row) :
  for_enumerate_from 0 (map coords rows)
    (fun i sample _ =>
       v <- exp_cell (option_map (target self) sample) ;;
       update_item i (with_target_value v)) tt buf
  = for_enumerate_from 0 (map coords rows)
      (fun i sample _ =>
         update_item i
           (with_target_value
              (option_map (fun x => c_exp (target self x)) sample))) tt buf.
Proof.
  apply for_enumerate_from_ext_in. intros i x acc s Hx.
  apply target_step_safe.
  rewrite Forall_forall in target_returns. now apply target_returns.
Qed.

(** The steps every call goes through once the two ledgers are found to
    have the same number of rows: the snapshot and the auxiliary run are
    appended, both length assertions pass, the targets of the new samples
    are stored and their deltas are reset. *)
Ltac enter_calculate_weights Hrows :=
  unfold _calculate_weights;
  unfold bind at 1, modify at 1;
  unfold bind at 1, zoom at 1, modify at 1;
  unfold bind at 1, get at 1;
  cbn [vget vset proposal_history_view deltas_targets_view
       old_weights_samples old_deltas_targets vcompose history_view
       all_weights_samples all_deltas_targets History.all
       this_weights_samples this_deltas_targets History.last_run
       super_view ImportanceSampler.history_view History.old
       sampled super proposal_history _deltas_targets_evaluated
       ImportanceSampler.history proposal ImportanceSampler.proposal
       history target ImportanceSampler.target];
  unfold History.append; rewrite !removelast_last, !last_last;
  fold H A Q q N;
  let E1 := fresh "E" in
  assert (E1 : (length (concat H) =? length (concat A)) = true)
    by (now apply Nat.eqb_eq);
  let E2 := fresh "E" in
  assert (E2 : (length (concat (H ++ [rows]))
                =? length (concat (A ++ [repeat aux_uninit N]))) = true)
    by (apply Nat.eqb_eq; rewrite !concat_app, !length_app; simpl;
        rewrite !app_nil_r, repeat_length; fold N; lia);
  rewrite E1, E2; clear E1 E2;
  unfold assert at 1 2;
  unfold bind at 1, ret at 1; unfold bind at 1, ret at 1;
  (* the target at the new samples *)
  unfold bind at 1, zoom at 1;
  cbn [vget vset this_deltas_targets vcompose deltas_targets_view
       History.last_run _deltas_targets_evaluated super proposal_history];
  rewrite last_last, removelast_last;
  unfold for_enumerate at 1;
  fold (target self);
  rewrite targets_loop;
  let L1 := fresh "L" in
  pose proof (@for_enumerate_rows _ _
    (fun sample => with_target_value
       (option_map (fun x : point => c_exp (target self x)) sample))
    (map coords rows) [] (repeat aux_uninit N) []) as L1;
  simpl in L1; rewrite app_nil_r in L1;
  rewrite L1 by (unfold N; now rewrite repeat_length, length_map);
  clear L1; rewrite app_nil_r;
  (* this_deltas[:] = 0. *)
  unfold bind at 1, zoom at 1, modify at 1;
  cbn [vget vset this_deltas_targets vcompose deltas_targets_view
       History.last_run _deltas_targets_evaluated super proposal_history];
  rewrite last_last, removelast_last;
  unfold N; rewrite map_combine_repeat, map_map;
  cbn [fst snd with_delta with_target_value aux_uninit delta target_value];
  (* the deltas of the new samples *)
  unfold bind at 1, zoom at 1;
  cbn [vget vset this_deltas_targets vcompose deltas_targets_view
       History.last_run _deltas_targets_evaluated super proposal_history];
  rewrite last_last, removelast_last;
  unfold for_enumerate at 1.

Lemma last_run_index :
  rows <> [] ->
  match map coords rows with
  | [] => None
  | _ :: _ => last_index 0 (H ++ [rows]) None
  end = Some (length H).
Proof.
  intros Hne. destruct rows as [|r rows']; [contradiction|]. simpl.
  unfold last_index. destruct (H ++ [r :: rows']) eqn:E.
  - destruct H; discriminate.
  - rewrite <- E, length_app. simpl. f_equal. lia.
Qed.

Lemma _calculate_weights_returns :
  length (concat H) = length (concat A) ->
  length H = length Q ->
  rows <> [] ->
  _calculate_weights N (sampled self rows) = (finished self rows, Return tt).
Proof.
  intros Hrows Hsnaps Hne. enter_calculate_weights Hrows.
  pose proof (@outer_loop_ok L (Q ++ [_cp q]) _ (H ++ [rows])
                (map coords rows)) as L2.
  specialize (L2 ltac:(rewrite !length_app; simpl; lia) snapshots_return
                None []).
  simpl in L2.
  erewrite (fun mid Hm =>
              eq_trans (f_equal _ (eq_sym (app_nil_r mid))) (L2 mid [] Hm)).
  2:{ now rewrite !length_map. }
  clear L2. rewrite app_nil_r.
  rewrite (last_run_index Hne).
  assert (E3 : (length H + 1 =? length (Q ++ [_cp q])) = true).
  { apply Nat.eqb_eq. rewrite length_app. simpl. lia. }
  rewrite E3. unfold assert at 1. unfold bind at 1, ret at 1.
  rewrite map_combine_maps.
  match goal with
  | |- context [A ++ [?l]] =>
      replace l with (this_aux self rows)
        by (unfold this_aux; rewrite map_map; reflexivity)
  end.
  assert (Hold : length (corrected_old (length rows) q H A)
                 = list_sum (map (@length _) A)).
  { unfold corrected_old. rewrite length_map, length_combine, length_map.
    rewrite <- length_rows. lia. }
  (* the deltas of the old samples *)
  assert (Eold :
    (if negb (length (concat H) =? 0)
     then
       zoom old_deltas_targets
         (for_enumerate (map coords (concat H))
            (fun (i_sample : nat) (sample : option point) (_ : unit) =>
               row <- getitem i_sample ;;
               q0 <- list_getitem (Q ++ [_cp q]) (length (Q ++ [_cp q]) - 1);;
               e <- exp_cell (option_map (evaluate q0) sample) ;;
               setitem i_sample (add_to_delta (length rows) e row))
            tt)
     else ret tt)
      {| super := super (sampled self rows);
         proposal_history := Q ++ [_cp q];
         _deltas_targets_evaluated := A ++ [this_aux self rows] |}
    = ({| super := super (sampled self rows);
          proposal_history := Q ++ [_cp q];
          _deltas_targets_evaluated :=
            History.regroup (map (@length _) A)
              (corrected_old (length rows) q H A) ++ [this_aux self rows] |},
       Return tt)).
  { destruct (Nat.eqb_spec (length (concat H)) 0) as [Z|NZ]; cbn [negb].
    - unfold ret. do 3 f_equal.
      unfold corrected_old.
      assert (ZA : concat A = []) by (apply length_zero_iff_nil; lia).
      rewrite ZA, combine_nil. simpl map.
      rewrite <- ZA. symmetry. apply regroup_rows.
    - unfold zoom.
      cbn [vget vset old_deltas_targets vcompose deltas_targets_view
           History.old _deltas_targets_evaluated super proposal_history].
      rewrite removelast_last, last_last.
      unfold for_enumerate.
      erewrite for_enumerate_from_ext_in with
        (body2 := fun i sample _ =>
                    update_item i
                      (fun row => add_density (length rows) q sample row)).
      + pose proof (@for_enumerate_rows _ _
          (fun sample row => add_density (length rows) q sample row)
          (map coords (concat H)) [] (concat A) []) as L3.
        simpl in L3. rewrite !app_nil_r in L3.
        rewrite L3 by (rewrite length_map; lia).
        reflexivity.
      + intros i x acc s Hx.
        rewrite (@correction_step_safe L (Q ++ [_cp q]) x i (length rows)).
        * unfold bind at 1, list_getitem.
          rewrite length_app.
          replace (length Q + length [_cp q] - 1) with (length Q)
            by (simpl; lia).
          rewrite nth_error_middle. reflexivity.
        * intros q' Hq'. rewrite length_app in Hq'.
          replace (length Q + length [_cp q] - 1) with (length Q) in Hq'
            by (simpl; lia).
          rewrite nth_error_middle in Hq'. injection Hq' as <-.
          rewrite Forall_forall in correction_returns.
          now apply correction_returns. }
  unfold bind at 1.
  change {| ImportanceSampler.proposal := q;
            ImportanceSampler.rng := ImportanceSampler.rng (super self);
            ImportanceSampler.target := target self;
            ImportanceSampler.history := H ++ [rows] |}
    with (super (sampled self rows)).
  rewrite Eold. clear Eold.
  (* the weights *)
  unfold bind at 1, get at 1.
  cbn [super sampled ImportanceSampler.history _deltas_targets_evaluated].
  unfold zoom.
  cbn [vget vset all_weights_samples vcompose history_view super_view
       ImportanceSampler.history_view History.all super sampled
       ImportanceSampler.history ImportanceSampler.proposal
       ImportanceSampler.rng ImportanceSampler.target
       proposal_history _deltas_targets_evaluated].
  rewrite !concat_app. simpl concat. rewrite !app_nil_r.
  rewrite concat_regroup by exact Hold.
  unfold assign_weights.
  assert (E4 : (length (map (mixture_weight (length (concat H ++ rows)))
                          (corrected_old (length rows) q H A
                           ++ this_aux self rows))
                =? length (concat H ++ rows)) = true).
  { apply Nat.eqb_eq. rewrite length_map, !length_app, Hold, <- length_rows.
    unfold this_aux. rewrite !length_map. lia. }
  fold H. rewrite E4. reflexivity.
Qed.

(** A run of no points: the loop over the new samples does not bind
    [i_run], and the assertion that reads it raises. *)
Lemma _calculate_weights_no_points :
  length (concat H) = length (concat A) ->
  rows = [] ->
  _calculate_weights N (sampled self rows)
  = (allocated self rows, Raise (UnboundLocalError "i_run")).
Proof.
  intros Hrows Hnil. enter_calculate_weights Hrows.
  unfold allocated. fold H A Q q. rewrite Hnil. reflexivity.
Qed.

(** Fewer snapshots than runs: indexing [self.proposal_history] fails
    inside the loop, before the assertion on the snapshot count. *)
Lemma _calculate_weights_short_snapshots :
  length (concat H) = length (concat A) ->
  length Q < length H ->
  rows <> [] ->
  snd (_calculate_weights N (sampled self rows)) = Raise IndexError.
Proof.
  intros Hrows Hsnaps Hne. enter_calculate_weights Hrows.
  match goal with
  | |- context [for_enumerate_from 0 (map coords rows) ?body None ?buf] =>
      pose proof (@outer_loop_short L (Q ++ [_cp q]) _ (H ++ [rows])
                    (map coords rows)
                    ltac:(rewrite !length_app; simpl; lia)
                    ltac:(destruct rows; [contradiction | discriminate])
                    snapshots_return
                    0 None buf) as S
  end.
  match type of S with
  | snd ?c = _ => destruct c as [buf o]
  end.
  simpl in S. subst o. reflexivity.
Qed.

(** More snapshots than runs: the loops go through and the assertion on
    the snapshot count fails. *)
Lemma _calculate_weights_long_snapshots :
  length (concat H) = length (concat A) ->
  length H < length Q ->
  rows <> [] ->
  snd (_calculate_weights N (sampled self rows))
  = Raise (AssertionError inconsistency_message).
Proof.
  intros Hrows Hsnaps Hne. enter_calculate_weights Hrows.
  pose proof (@outer_loop_ok L (Q ++ [_cp q]) _ (H ++ [rows])
                (map coords rows)) as L2.
  specialize (L2 ltac:(rewrite !length_app; simpl; lia) snapshots_return
                None []).
  simpl in L2.
  erewrite (fun mid Hm =>
              eq_trans (f_equal _ (eq_sym (app_nil_r mid))) (L2 mid [] Hm)).
  2:{ now rewrite !length_map. }
  clear L2. rewrite app_nil_r.
  rewrite (last_run_index Hne).
  assert (E3 : (length H + 1 =? length (Q ++ [_cp q])) = false).
  { apply Nat.eqb_neq. rewrite length_app. simpl. lia. }
  rewrite E3. unfold assert at 1. unfold bind at 1, raise at 1.
  reflexivity.
Qed.

End Step.

(** ** One call of [DeterministicIS.run] *)

Lemma length_new_rows self N : length (new_rows self N) = N.
Proof. unfold new_rows. rewrite length_map. apply length_drawn. Qed.

Lemma new_rows_nonempty self N : 1 <= N -> new_rows self N <> [].
Proof.
  intros HN E. pose proof (length_new_rows self N) as HL.
  rewrite E in HL. simpl in HL. lia.
Qed.

Lemma new_rows_coords self N :
  Forall (fun r => exists x, coords r = Some x) (new_rows self N).
Proof.
  unfold new_rows. apply Forall_forall. intros r Hr.
  apply in_map_iff in Hr. destruct Hr as (x & <- & _). now exists x.
Qed.

Lemma new_rows_points self N :
  map coords (new_rows self N) = map Some (drawn (super self) N).
Proof. unfold new_rows. rewrite map_map. reflexivity. Qed.

Lemma new_rows_unweighted self N :
  Forall (fun r => weight r = None) (new_rows self N).
Proof.
  unfold new_rows. apply Forall_forall. intros r Hr.
  apply in_map_iff in Hr. now destruct Hr as (x & <- & _).
Qed.

Section Run.
Context {L : Libm}.

Lemma run_unfold (N : nat) (trace : bool) (self : t) :
  run N trace self
  = (fst (_calculate_weights N
            (sampled (drawn_state self N) (new_rows self N))),
     run_result self N trace
       (snd (_calculate_weights N
               (sampled (drawn_state self N) (new_rows self N))))).
Proof.
  unfold run, run_method, _get_samples.
  destruct trace; unfold bind at 1, zoom at 1;
    rewrite _get_samples_spec; cbn [vset super_view];
    unfold bind at 1;
    change (_calculate_weights N _)
      with (_calculate_weights N
              (sampled (drawn_state self N) (new_rows self N)));
    destruct (_calculate_weights N _) as [st [[]|e]]; reflexivity.
Qed.

(** What [no_overflow] says of the three loops. *)
Lemma no_overflow_target (N : nat) (self : t) :
  no_overflow self N = true ->
  Forall (fun sample => exp_returns_at (option_map (target self) sample))
    (map coords (new_rows self N)).
Proof.
  unfold no_overflow, exp_arguments. rewrite forallb_forall. intros H.
  rewrite new_rows_points. apply Forall_forall. intros c Hc.
  apply in_map_iff in Hc. destruct Hc as (x & <- & Hx). simpl.
  apply H. apply in_or_app. left. apply in_map_iff. now exists x.
Qed.

Lemma no_overflow_snapshots (N : nat) (self : t) :
  no_overflow self N = true ->
  Forall (fun sample =>
            forall q', In q' (proposal_history self ++ [_cp (proposal self)]) ->
              exp_returns_at (option_map (evaluate q') sample))
    (map coords (new_rows self N)).
Proof.
  unfold no_overflow, exp_arguments. rewrite forallb_forall. intros H.
  rewrite new_rows_points. apply Forall_forall. intros c Hc.
  apply in_map_iff in Hc. destruct Hc as (x & <- & Hx). intros q' Hq'. simpl.
  apply H. apply in_or_app. right. apply in_or_app. left.
  apply in_flat_map. exists x. split; [exact Hx|].
  apply in_map_iff. now exists q'.
Qed.

Lemma no_overflow_correction (N : nat) (self : t) :
  no_overflow self N = true ->
  Forall (fun sample =>
            exp_returns_at (option_map (evaluate (proposal self)) sample))
    (map coords (concat (history self))).
Proof.
  unfold no_overflow, exp_arguments. rewrite forallb_forall. intros H.
  apply Forall_forall. intros c Hc.
  apply in_map_iff in Hc. destruct Hc as (r & <- & Hr).
  destruct (coords r) as [x|] eqn:E; simpl; [|exact I].
  apply H. apply in_or_app. right. apply in_or_app. right.
  apply in_flat_map. exists r. split; [exact Hr|].
  rewrite E. now left.
Qed.

Section Outcomes.
Variables (N : nat) (trace : bool) (self : t).

(** The run returns: the ledgers agree, there is a snapshot for every
    run, at least one point is asked for and [math.exp] does not
    raise. *)
Lemma run_returns :
  same_row_count self ->
  length (history self) = length (proposal_history self) ->
  1 <= N ->
  no_overflow self N = true ->
  run N trace self
  = (finished (drawn_state self N) (new_rows self N),
     Return (if trace then Some (origin (super self) N) else None)).
Proof.
  intros Hrows Hsnaps HN Hsafe. rewrite run_unfold.
  pose proof (@_calculate_weights_returns L (drawn_state self N)
                (new_rows self N)
                (no_overflow_target _ _ Hsafe)
                (no_overflow_snapshots _ _ Hsafe)
                (no_overflow_correction _ _ Hsafe)
                Hrows Hsnaps (new_rows_nonempty self HN))
    as E.
  rewrite length_new_rows in E. rewrite E. reflexivity.
Qed.

(** The ledgers have different row counts. *)
Lemma run_rows_differ :
  ~ same_row_count self ->
  run N trace self
  = (allocated (drawn_state self N) (new_rows self N),
     Raise (AssertionError inconsistency_message)).
Proof.
  intros Hrows. rewrite run_unfold.
  pose proof (@_calculate_weights_rows_differ L (drawn_state self N)
                (new_rows self N) Hrows) as E.
  rewrite length_new_rows in E. rewrite E. reflexivity.
Qed.

(** No point is asked for. *)
Lemma run_no_points :
  same_row_count self ->
  N = 0 ->
  run N trace self
  = (allocated (drawn_state self N) (new_rows self N),
     Raise (UnboundLocalError "i_run")).
Proof.
  intros Hrows HN. rewrite run_unfold.
  assert (Hnil : new_rows self N = []).
  { apply length_zero_iff_nil. now rewrite length_new_rows. }
  assert (Ht : Forall
                 (fun sample =>
                    exp_returns_at
                      (option_map (target (drawn_state self N)) sample))
                 (map coords (new_rows self N)))
    by (rewrite Hnil; constructor).
  pose proof (@_calculate_weights_no_points L (drawn_state self N)
                (new_rows self N) Ht Hrows Hnil) as E.
  rewrite length_new_rows in E. rewrite E. reflexivity.
Qed.

(** Fewer snapshots than runs. *)
Lemma run_short_snapshots :
  same_row_count self ->
  length (proposal_history self) < length (history self) ->
  1 <= N ->
  no_overflow self N = true ->
  snd (run N trace self) = Raise IndexError.
Proof.
  intros Hrows Hsnaps HN Hsafe. rewrite run_unfold.
  pose proof (@_calculate_weights_short_snapshots L (drawn_state self N)
                (new_rows self N)
                (no_overflow_target _ _ Hsafe)
                (no_overflow_snapshots _ _ Hsafe)
                Hrows Hsnaps (new_rows_nonempty self HN))
    as E.
  rewrite length_new_rows in E. cbn [snd]. now rewrite E.
Qed.

(** More snapshots than runs. *)
Lemma run_long_snapshots :
  same_row_count self ->
  length (history self) < length (proposal_history self) ->
  1 <= N ->
  no_overflow self N = true ->
  snd (run N trace self) = Raise (AssertionError inconsistency_message).
Proof.
  intros Hrows Hsnaps HN Hsafe. rewrite run_unfold.
  pose proof (@_calculate_weights_long_snapshots L (drawn_state self N)
                (new_rows self N)
                (no_overflow_target _ _ Hsafe)
                (no_overflow_snapshots _ _ Hsafe)
                (no_overflow_correction _ _ Hsafe)
                Hrows Hsnaps (new_rows_nonempty self HN))
    as E.
  rewrite length_new_rows in E. cbn [snd]. now rewrite E.
Qed.

(** Every run, however it ends: a snapshot and a run of [N] rows are
    appended to each ledger, the points drawn are in the new run, no
    sample moves, and a run that raises has written no weight. *)
Lemma run_frame :
  let self' := fst (run N trace self) in
  proposal_history self' = proposal_history self ++ [proposal self]
  /\ map (@length _) (_deltas_targets_evaluated self')
     = map (@length _) (_deltas_targets_evaluated self) ++ [N]
  /\ proposal self' = proposal self
  /\ target self' = target self
  /\ ImportanceSampler.rng (super self') = next_rng (super self) N
  /\ map (map coords) (history self')
     = map (map coords) (history self) ++ [map Some (drawn (super self) N)]
  /\ (forall e, snd (run N trace self) = Raise e ->
      history self' = history self ++ [new_rows self N]).
Proof.
  cbv zeta. rewrite run_unfold. cbn [fst snd].
  destruct (_calculate_weights_frame N
              (sampled (drawn_state self N) (new_rows self N)))
    as (Hq & Ha & Hp & Ht & Hg & Hc & Hr).
  split; [exact Hq|]. split; [exact Ha|]. split; [exact Hp|].
  split; [exact Ht|]. split; [exact Hg|]. split.
  - rewrite Hc. unfold sampled, history at 1.
    cbn [super ImportanceSampler.history].
    rewrite map_app. simpl. now rewrite new_rows_points.
  - intros e He. unfold history at 1. rewrite (Hr e); [reflexivity|].
    destruct (snd (_calculate_weights N _)); [discriminate|].
    simpl in He. now injection He as ->.
Qed.

End Outcomes.
End Run.

(** ** The invariant of the deterministic-mixture sampler *)

Lemma structured_row_count self : structured self -> same_row_count self.
Proof.
  intros [Hr _]. unfold same_row_count. now rewrite !length_rows, Hr.
Qed.

Lemma length_reweighted aux rows :
  length aux = length rows -> length (reweighted aux rows) = length rows.
Proof.
  intros H. unfold reweighted.
  rewrite length_map, length_combine, length_map. lia.
Qed.

Lemma reweighted_coords aux rows :
  length aux = length rows ->
  map coords (reweighted aux rows) = map coords rows.
Proof.
  intros H. unfold reweighted.
  rewrite with_weight_coords, length_map, H, <- (length_map coords).
  apply firstn_all.
Qed.

Lemma Forall2_corrected (P P' : sample_row -> aux_row -> Prop)
    (f : option point -> aux_row -> aux_row) rows aux :
  (forall r a, P r a -> P' r (f (coords r) a)) ->
  Forall2 P rows aux ->
  Forall2 P' rows
    (map (fun p => f (fst p) (snd p)) (combine (map coords rows) aux)).
Proof.
  intros Hf. induction 1; simpl; constructor; auto.
Qed.

Lemma Forall2_reweighted (P : sample_row -> aux_row -> Prop) rows aux :
  (forall r a w, P r a -> P (with_weight w r) a) ->
  Forall2 P rows aux ->
  Forall2 P (reweighted aux rows) aux.
Proof.
  intros Hw F. unfold reweighted.
  generalize (length rows) as n.
  induction F; intros n; simpl; constructor; auto.
Qed.

Lemma Forall_reweighted (P : sample_row -> aux_row -> Prop)
    (W : nat -> sample_row -> Prop) rows aux :
  (forall n r a, P r a -> W n (with_weight (mixture_weight n a) r)) ->
  Forall2 P rows aux ->
  Forall (W (length rows)) (reweighted aux rows).
Proof.
  intros Hw F. unfold reweighted.
  generalize (length rows) as n.
  induction F; intros n; simpl; constructor; auto.
Qed.

Lemma structured_allocated self rows :
  structured self -> structured (allocated self rows).
Proof.
  intros [Hr Hq]. constructor.
  - unfold allocated, sampled, history.
    cbn [super ImportanceSampler.history _deltas_targets_evaluated].
    fold (history self). rewrite !map_app, Hr. simpl.
    now rewrite repeat_length.
  - unfold allocated, sampled, history.
    cbn [super ImportanceSampler.history proposal_history].
    fold (history self). rewrite !length_app. simpl. lia.
Qed.

Lemma init_empty target q indicator g :
  empty (__init__ target q indicator g).
Proof. repeat split. Qed.

Lemma clear_empty self : empty (fst (clear self)).
Proof. repeat split. Qed.

Lemma init_structured target q indicator g :
  structured (__init__ target q indicator g).
Proof. constructor; reflexivity. Qed.

Section Invariant.
Context {L : Libm}.

Lemma consistent_row_count self : consistent self -> same_row_count self.
Proof. intros [Hs _]. now apply structured_row_count. Qed.

Lemma fold_accumulate (x : point) (l : list (nat * Proposal)) :
  forall d tv,
    fold_left (accumulate (Some x)) l {| delta := Some d; target_value := tv |}
    = {| delta :=
           Some (fold_left
                   (fun acc nq =>
                      (acc + of_nat (fst nq)
                             * c_exp (evaluate (snd nq) x))%float)
                   l d);
         target_value := tv |}.
Proof.
  induction l as [|nq l IH]; intros d tv; simpl; [reflexivity|].
  unfold accumulate at 2, add_density, add_to_delta, with_delta. simpl.
  apply IH.
Qed.

Lemma new_aux_row_some target sizes snapshots x :
  new_aux_row target sizes snapshots (Some x) = aux_of target sizes snapshots x.
Proof. unfold new_aux_row. simpl. now rewrite fold_accumulate. Qed.

Lemma mixture_delta_snoc sizes snapshots N q x :
  length sizes = length snapshots ->
  mixture_delta (sizes ++ [N]) (snapshots ++ [q]) x
  = (mixture_delta sizes snapshots x + of_nat N * c_exp (evaluate q x))%float.
Proof.
  intros H. unfold mixture_delta.
  rewrite combine_app_same by exact H.
  now rewrite fold_left_app.
Qed.

Lemma add_density_aux_of target sizes snapshots N q x :
  length sizes = length snapshots ->
  add_density N q (Some x) (aux_of target sizes snapshots x)
  = aux_of target (sizes ++ [N]) (snapshots ++ [q]) x.
Proof.
  intros H. unfold add_density, add_to_delta, aux_of, with_delta. simpl.
  now rewrite mixture_delta_snoc.
Qed.

Lemma Forall2_new_rows target sizes snapshots rows :
  Forall (fun r => exists x, coords r = Some x) rows ->
  Forall2 (row_consistent target sizes snapshots) rows
    (map (new_aux_row target sizes snapshots) (map coords rows)).
Proof.
  induction 1 as [|r rs (x & Hx) _ IH]; simpl; constructor; [|exact IH].
  exists x. split; [exact Hx|]. rewrite Hx. apply new_aux_row_some.
Qed.

(** *** The state a returning call leaves *)

Section Finished.
Variables (self : t) (rows : list sample_row).
Hypothesis Hrows : same_row_count self.

Lemma length_corrected_old :
  length (corrected_old (length rows) (proposal self) (history self)
            (_deltas_targets_evaluated self))
  = length (concat (_deltas_targets_evaluated self)).
Proof.
  unfold corrected_old. rewrite length_map, length_combine, length_map.
  unfold same_row_count in Hrows. lia.
Qed.

Lemma length_this_aux : length (this_aux self rows) = length rows.
Proof. unfold this_aux. now rewrite !length_map. Qed.

Lemma length_all_aux :
  length (corrected_old (length rows) (proposal self) (history self)
            (_deltas_targets_evaluated self) ++ this_aux self rows)
  = length (concat (history self) ++ rows).
Proof.
  rewrite !length_app, length_corrected_old, length_this_aux.
  unfold same_row_count in Hrows. lia.
Qed.

Lemma history_finished :
  history (finished self rows)
  = History.regroup (map (@length _) (history self ++ [rows]))
      (reweighted
         (corrected_old (length rows) (proposal self) (history self)
            (_deltas_targets_evaluated self) ++ this_aux self rows)
         (concat (history self) ++ rows)).
Proof. reflexivity. Qed.

Lemma history_finished_lengths :
  map (@length _) (history (finished self rows))
  = map (@length _) (history self) ++ [length rows].
Proof.
  rewrite history_finished, regroup_lengths.
  - now rewrite map_app.
  - rewrite length_reweighted by apply length_all_aux.
    rewrite <- length_rows, concat_app. simpl. now rewrite app_nil_r.
Qed.

Lemma history_finished_rows :
  concat (history (finished self rows))
  = reweighted
      (corrected_old (length rows) (proposal self) (history self)
         (_deltas_targets_evaluated self) ++ this_aux self rows)
      (concat (history self) ++ rows).
Proof.
  rewrite history_finished. apply concat_regroup.
  rewrite length_reweighted by apply length_all_aux.
  rewrite <- length_rows, concat_app. simpl. now rewrite app_nil_r.
Qed.

Lemma aux_finished_lengths :
  map (@length _) (_deltas_targets_evaluated (finished self rows))
  = map (@length _) (_deltas_targets_evaluated self) ++ [length rows].
Proof.
  unfold finished. cbn [_deltas_targets_evaluated].
  rewrite map_app, regroup_lengths.
  - simpl. now rewrite length_this_aux.
  - rewrite length_corrected_old. apply length_rows.
Qed.

Lemma aux_finished_rows :
  concat (_deltas_targets_evaluated (finished self rows))
  = corrected_old (length rows) (proposal self) (history self)
      (_deltas_targets_evaluated self) ++ this_aux self rows.
Proof.
  unfold finished. cbn [_deltas_targets_evaluated].
  rewrite concat_app, concat_regroup.
  - simpl. now rewrite app_nil_r.
  - rewrite length_corrected_old. apply length_rows.
Qed.

Lemma coords_finished :
  map coords (concat (history (finished self rows)))
  = map coords (concat (history self)) ++ map coords rows.
Proof.
  rewrite history_finished_rows, reweighted_coords by apply length_all_aux.
  apply map_app.
Qed.

End Finished.

Lemma structured_finished self rows :
  structured self -> structured (finished self rows).
Proof.
  intros Hs. pose proof (structured_row_count Hs) as Hrows.
  destruct Hs as [Hr Hq]. constructor.
  - rewrite history_finished_lengths, aux_finished_lengths by assumption.
    now rewrite Hr.
  - rewrite <- (length_map (@length _) (history (finished self rows))).
    rewrite history_finished_lengths by assumption.
    unfold finished. cbn [proposal_history].
    rewrite !length_app, length_map. simpl. lia.
Qed.

Section FinishedRows.
Variables (self : t) (rows : list sample_row).
Hypothesis Hcons : consistent self.
Hypothesis Hcoords : Forall (fun r => exists x, coords r = Some x) rows.

Lemma rows_finished :
  Forall2
    (row_consistent (target self)
       (map (@length _) (history self) ++ [length rows])
       (proposal_history self ++ [proposal self]))
    (concat (history self) ++ rows)
    (corrected_old (length rows) (proposal self) (history self)
       (_deltas_targets_evaluated self) ++ this_aux self rows).
Proof.
  destruct Hcons as [[Hr Hq] HF].
  assert (HL : length (map (@length sample_row) (history self))
               = length (proposal_history self))
    by now rewrite length_map.
  apply Forall2_app.
  - unfold corrected_old.
    apply Forall2_corrected with
      (P := row_consistent (target self) (map (@length _) (history self))
              (proposal_history self)).
    + intros r a (x & Hx & ->). exists x. split; [exact Hx|].
      rewrite Hx. now apply add_density_aux_of.
    + exact HF.
  - unfold this_aux. rewrite map_app. apply Forall2_new_rows, Hcoords.
Qed.

Lemma consistent_finished : consistent (finished self rows).
Proof.
  pose proof (consistent_row_count Hcons) as Hrows.
  constructor.
  - apply structured_finished, Hcons.
  - rewrite history_finished_lengths, history_finished_rows,
      aux_finished_rows by assumption.
    apply Forall2_reweighted.
    + intros r a w (x & Hx & Ha). exists x. split; assumption.
    + apply rows_finished.
Qed.

Lemma weights_finished : weights_stored (finished self rows).
Proof.
  pose proof (consistent_row_count Hcons) as Hrows.
  unfold weights_stored.
  rewrite history_finished_lengths, history_finished_rows by assumption.
  assert (HN : length (concat (history self) ++ rows)
               = list_sum (map (@length _) (history self) ++ [length rows])).
  { rewrite length_app, length_rows, list_sum_app. simpl. lia. }
  eapply Forall_impl.
  2:{ apply Forall_reweighted with
        (P := row_consistent (target self)
                (map (@length _) (history self) ++ [length rows])
                (proposal_history self ++ [proposal self]))
        (W := fun n r =>
                exists x, coords r = Some x
                  /\ weight r
                     = Some (c_exp (target self x)
                             / (mixture_delta
                                  (map (@length _) (history self)
                                   ++ [length rows])
                                  (proposal_history self ++ [proposal self]) x
                                / of_nat n))%float).
      - intros n r a (x & Hx & ->). exists x. split; [exact Hx|]. reflexivity.
      - apply rows_finished. }
  cbv beta. intros r (x & Hx & Hw). exists x. split; [exact Hx|].
  rewrite Hw, HN. reflexivity.
Qed.

End FinishedRows.

Lemma consistent_drawn_state self N :
  consistent self -> consistent (drawn_state self N).
Proof. intros [[H1 H2] H3]. repeat constructor; assumption. Qed.

Lemma consistent_set_proposal q self :
  consistent self -> consistent (set_proposal q self).
Proof. intros [[H1 H2] H3]. repeat constructor; assumption. Qed.

Lemma empty_consistent self : empty self -> consistent self.
Proof.
  intros (Hh & Ha & Hq). constructor; [constructor|].
  - now rewrite Hh, Ha.
  - now rewrite Hh, Hq.
  - rewrite Hh, Ha. constructor.
Qed.

(** Every call of [run], returning or not, appends one run of [N] rows
    to each ledger and one snapshot. *)
Lemma run_lengths (N : nat) (trace : bool) (self : t) :
  map (@length _) (history (fst (run N trace self)))
  = map (@length _) (history self) ++ [N].
Proof.
  destruct (run_frame N trace self) as (_ & _ & _ & _ & _ & Hc & _).
  apply (f_equal (map (@length _))) in Hc.
  rewrite map_app, !map_length_map in Hc. rewrite Hc. simpl.
  now rewrite length_map, length_drawn.
Qed.

Lemma run_structured (N : nat) (trace : bool) (self : t) :
  structured self ->
  structured (fst (run N trace self))
  /\ map (@length _) (history (fst (run N trace self)))
     = map (@length _) (history self) ++ [N].
Proof.
  intros [Hr Hq]. split; [|apply run_lengths].
  destruct (run_frame N trace self) as (Hs & Ha & _).
  constructor.
  - now rewrite run_lengths, Ha, Hr.
  - rewrite Hs, length_app. simpl.
    rewrite <- (length_map (@length _) (history _)), run_lengths.
    rewrite length_app, length_map. simpl. lia.
Qed.

(** A returning run on a consistent sampler, in one piece. *)
Lemma run_on_consistent (N : nat) (trace : bool) (self : t) :
  consistent self ->
  1 <= N ->
  no_overflow self N = true ->
  let self' := finished (drawn_state self N) (new_rows self N) in
  run N trace self
  = (self', Return (if trace then Some (origin (super self) N) else None))
  /\ consistent self'
  /\ weights_stored self'
  /\ map (@length _) (history self') = map (@length _) (history self) ++ [N]
  /\ map coords (concat (history self'))
     = map coords (concat (history self)) ++ map Some (drawn (super self) N).
Proof.
  intros Hc HN Hsafe. cbv zeta.
  pose proof (consistent_drawn_state N Hc) as Hc'.
  pose proof (consistent_row_count Hc') as Hrows.
  pose proof (new_rows_coords self N) as Hco.
  split; [|split; [|split; [|split]]].
  - apply run_returns; auto using consistent_row_count.
    symmetry. apply (one_snapshot_per_run (consistent_structured Hc)).
  - apply consistent_finished; assumption.
  - apply weights_finished; assumption.
  - rewrite history_finished_lengths by assumption.
    now rewrite length_new_rows.
  - rewrite coords_finished by assumption. f_equal.
    unfold new_rows. rewrite !map_map. reflexivity.
Qed.

End Invariant.

(** ** Values that are not negative *)







Section Values.
Context {L : Libm}.











End Values.

(** ** Runs on inconsistent samplers *)

Section Misuse.
Context {L : Libm}.

(** X1: where [math.exp] does not raise, what a run returns or raises
    is decided by the shape of the sampler alone.  Ledgers with different
    row counts: the [AssertionError] with the diagnostic message,
    whatever [N] is.  Otherwise [N = 0]: the [UnboundLocalError] of
    [i_run].  Otherwise fewer snapshots than runs: [IndexError]; more
    snapshots than runs: the [AssertionError] with the diagnostic
    message.  In every other case the run returns, [origin] under [trace]
    and [None] without. *)
Theorem run_outcome (N : nat) (trace : bool) (self : t) :
  no_overflow self N = true ->
  snd (DeterministicIS.run N trace self) = expected_outcome N trace self.
Proof.
  intros Hsafe. unfold expected_outcome.
  destruct (Nat.eqb_spec (length (concat (history self)))
              (length (concat (_deltas_targets_evaluated self))))
    as [Hrows | Hrows]; cbn [negb].
  2:{ now rewrite run_rows_differ. }
  destruct (Nat.eqb_spec N 0) as [HN | HN].
  { now rewrite run_no_points. }
  assert (HN' : 1 <= N) by lia.
  destruct (Nat.ltb_spec (length (proposal_history self))
              (length (history self))) as [Hs | Hs].
  { now apply run_short_snapshots. }
  destruct (Nat.ltb_spec (length (history self))
              (length (proposal_history self))) as [Hl | Hl].
  { now apply run_long_snapshots. }
  rewrite run_returns; auto. lia.
Qed.

(** X2: a run that raises is not rolled back, and has written no
    weight.  Whatever the exception, the ledger then holds the rows of
    the old runs as they were and one new run with the points drawn,
    whose weights are memory that was never written. *)
Theorem raising_run_writes_no_weight (N : nat) (trace : bool) (self : t) e :
  snd (DeterministicIS.run N trace self) = Raise e ->
  history (fst (DeterministicIS.run N trace self))
  = history self ++ [new_rows self N]
  /\ Forall (fun r => weight r = None) (new_rows self N).
Proof.
  intros He. split; [|apply new_rows_unweighted].
  destruct (run_frame N trace self) as (_ & _ & _ & _ & _ & _ & Hr).
  now apply (Hr e).
Qed.

(** X3: a run never touches a sample.  Whatever the state of the sampler
    and whether the run returns or raises, the ledger afterwards holds
    the coordinates it held, run by run, followed by one new run with the
    points the proposal drew. *)
Theorem run_keeps_the_samples (N : nat) (trace : bool) (self : t) :
  let self' := fst (DeterministicIS.run N trace self) in
  map (map coords) (history self')
  = map (map coords) (history self) ++ [map Some (drawn (super self) N)]
  /\ length (drawn (super self) N) = N.
Proof.
  cbv zeta. split; [|apply length_drawn].
  now destruct (run_frame N trace self) as (_ & _ & _ & _ & _ & Hc & _).
Qed.

(** *** Ledgers that disagree *)

Lemma allocated_row_count self N :
  same_row_count (allocated (drawn_state self N) (new_rows self N))
  <-> same_row_count self.
Proof.
  unfold same_row_count, allocated, sampled, history.
  cbn [super ImportanceSampler.history _deltas_targets_evaluated].
  change (ImportanceSampler.history (super (drawn_state self N)))
    with (ImportanceSampler.history (super self)).
  change (_deltas_targets_evaluated (drawn_state self N))
    with (_deltas_targets_evaluated self).
  rewrite !concat_app, !length_app. simpl.
  rewrite !app_nil_r, repeat_length. lia.
Qed.

Lemma DeterministicIS_rounds_cons q N trace (rounds : list round) self :
  DeterministicIS_rounds ((q, N, trace) :: rounds) self
  = DeterministicIS_rounds rounds (fst (run N trace (set_proposal q self))).
Proof. reflexivity. Qed.

Lemma rounds_rows_differ (rounds : list round) :
  forall self,
    ~ same_row_count self ->
    ~ same_row_count (DeterministicIS_rounds rounds self).
Proof.
  induction rounds as [|[[q N] trace] rounds IH]; intros self H;
    [exact H|].
  rewrite DeterministicIS_rounds_cons. apply IH.
  assert (H' : ~ same_row_count (set_proposal q self)) by exact H.
  rewrite run_rows_differ by exact H'. cbn [fst].
  now rewrite allocated_row_count.
Qed.

(** X4: ledgers that disagree stay in disagreement.  Once the sample
    ledger and the auxiliary ledger hold different numbers of rows, every
    later run raises the [AssertionError] with the diagnostic message,
    whatever proposals are installed and however many points are asked
    for in between: a run adds the same number of rows to both. *)
Theorem inconsistent_ledgers_keep_raising
    (rounds : list round) (q : Proposal) (N : nat) (trace : bool)
    (self : t) :
  ~ same_row_count self ->
  snd (DeterministicIS.run N trace
         (set_proposal q (DeterministicIS_rounds rounds self)))
  = Raise (AssertionError inconsistency_message).
Proof.
  intros H.
  assert (H' : ~ same_row_count
                 (set_proposal q (DeterministicIS_rounds rounds self)))
    by exact (rounds_rows_differ rounds H).
  now rewrite run_rows_differ.
Qed.

(** ** Sessions of several runs *)

Lemma rounds_structured (rounds : list round) :
  forall self,
    structured self ->
    structured (DeterministicIS_rounds rounds self)
    /\ map (@length _) (history (DeterministicIS_rounds rounds self))
       = map (@length _) (history self) ++ sizes_of rounds.
Proof.
  induction rounds as [|[[q N] trace] rounds IH]; intros self Hs.
  - simpl. split; [exact Hs | now rewrite app_nil_r].
  - assert (Hs' : structured (set_proposal q self))
      by (destruct Hs; constructor; assumption).
    destruct (run_structured N trace Hs') as (Hs1 & Hsz).
    destruct (IH _ Hs1) as (Hs2 & Hsz2).
    rewrite DeterministicIS_rounds_cons.
    split; [exact Hs2|].
    rewrite Hsz2, Hsz. simpl. now rewrite <- app_assoc.
Qed.

(** C7: after [k] calls of [run] with the sizes [N_1..N_k] on a new
    sampler, the sample ledger holds [N_1 + ... + N_k] rows in [k] runs,
    the auxiliary ledger has the same runs and rows, and there are [k]
    snapshots, whether the calls returned or raised; [clear] empties the
    three structures, and clearing twice is clearing once. *)
Theorem round_count_invariant
    (target : point -> float) (q0 : Proposal)
    (indicator : option (point -> bool)) (g : RNG) (rounds : list round) :
  let self :=
    DeterministicIS_rounds rounds (__init__ target q0 indicator g) in
  let cleared := fst (clear self) in
  length (concat (history self)) = list_sum (sizes_of rounds)
  /\ map (@length _) (history self) = sizes_of rounds
  /\ History.len (history self) = length rounds
  /\ map (@length _) (_deltas_targets_evaluated self) = sizes_of rounds
  /\ length (concat (_deltas_targets_evaluated self))
     = list_sum (sizes_of rounds)
  /\ length (proposal_history self) = length rounds
  /\ (history cleared = History.empty
      /\ _deltas_targets_evaluated cleared = History.empty
      /\ proposal_history cleared = [])
  /\ clear cleared = clear self.
Proof.
  cbv zeta.
  destruct (@rounds_structured rounds _
              (init_structured target q0 indicator g)) as ([Hr Hq] & Hsz).
  simpl app in Hsz.
  assert (Hk : length (history
                 (DeterministicIS_rounds rounds
                    (__init__ target q0 indicator g))) = length rounds).
  { rewrite <- (length_map (@length _)), Hsz. unfold sizes_of.
    apply length_map. }
  rewrite !length_rows, <- Hr, Hsz, Hq. unfold History.len.
  repeat split; auto.
Qed.

(** ** Runs of no points *)

Lemma ImportanceSampler_no_overflow_0 (other : ImportanceSampler.t) :
  ImportanceSampler_no_overflow other 0 = true.
Proof.
  unfold ImportanceSampler_no_overflow, ImportanceSampler_exp_arguments.
  assert (E : drawn other 0 = [])
    by (apply length_zero_iff_nil, length_drawn).
  now rewrite E.
Qed.

(** C10: on a sampler whose ledgers hold the same number of rows (a
    consistent one in particular), [DeterministicIS.run] with [N = 0]
    gets past both length assertions and then raises the
    [UnboundLocalError], a [NameError], of the loop variable [i_run]:
    with no new sample the loops that bind it are not entered.  By then
    each of the three structures has been given its new, empty entry.
    [ImportanceSampler.run] with [N = 0] returns. *)
Theorem run_without_points_raises_NameError
    (trace : bool) (self : t) :
  same_row_count self ->
  snd (DeterministicIS.run 0 trace self) = Raise (UnboundLocalError "i_run")
  /\ is_NameError (UnboundLocalError "i_run") = true
  /\ history (fst (DeterministicIS.run 0 trace self)) = history self ++ [[]]
  /\ _deltas_targets_evaluated (fst (DeterministicIS.run 0 trace self))
     = _deltas_targets_evaluated self ++ [[]]
  /\ proposal_history (fst (DeterministicIS.run 0 trace self))
     = proposal_history self ++ [_cp (proposal self)]
  /\ (forall other : ImportanceSampler.t,
        snd (ImportanceSampler.run 0 trace other)
        = Return (if trace then Some (origin other 0) else None)
        /\ ImportanceSampler.history
             (fst (ImportanceSampler.run 0 trace other))
           = ImportanceSampler.history other ++ [[]]).
Proof.
  intros Hrows. rewrite run_no_points by auto. cbn [fst snd].
  assert (Hnil : new_rows self 0 = [])
    by (apply length_zero_iff_nil, length_new_rows).
  refine (conj eq_refl (conj eq_refl (conj _ (conj _ (conj eq_refl _))))).
  - unfold allocated, sampled, history.
    cbn [super ImportanceSampler.history]. now rewrite Hnil.
  - unfold allocated. cbn [_deltas_targets_evaluated].
    now rewrite Hnil.
  - intros other.
    rewrite ImportanceSampler_run_spec
      by apply ImportanceSampler_no_overflow_0.
    cbn [fst snd ImportanceSampler.history].
    split; [reflexivity|].
    assert (E : drawn other 0 = [])
      by (apply length_zero_iff_nil, length_drawn).
    now rewrite E.
Qed.

(** ** The two samplers side by side *)

Lemma ImportanceSampler_rounds_cons q N trace (rounds : list round) i :
  ImportanceSampler_rounds ((q, N, trace) :: rounds) i
  = ImportanceSampler_rounds rounds
      (fst (ImportanceSampler.run N trace
              (ImportanceSampler.with_proposal q i))).
Proof. reflexivity. Qed.

Lemma rounds_same_draws (rounds : list round) :
  forall (d : t) (i : ImportanceSampler.t),
    ImportanceSampler.rng (super d) = ImportanceSampler.rng i ->
    target d = ImportanceSampler.target i ->
    map (map coords) (history d)
    = map (map coords) (ImportanceSampler.history i) ->
    let d' := DeterministicIS_rounds rounds d in
    let i' := ImportanceSampler_rounds rounds i in
    ImportanceSampler.rng (super d') = ImportanceSampler.rng i'
    /\ target d' = ImportanceSampler.target i'
    /\ map (map coords) (history d')
       = map (map coords) (ImportanceSampler.history i').
Proof.
  induction rounds as [|[[q N] trace] rounds IH]; intros d i Hg Ht Hh;
    cbv zeta.
  - repeat split; assumption.
  - rewrite DeterministicIS_rounds_cons, ImportanceSampler_rounds_cons.
    destruct (run_frame N trace (set_proposal q d))
      as (_ & _ & _ & Ht1 & Hg1 & Hc1 & _).
    destruct (ImportanceSampler_run_frame N trace
                (ImportanceSampler.with_proposal q i))
      as (_ & Ht2 & Hg2 & new_run & Hh2 & Hc2 & _).
    assert (Hd : drawn (super (set_proposal q d)) N
                 = drawn (ImportanceSampler.with_proposal q i) N).
    { unfold drawn. cbn. now rewrite Hg. }
    apply IH.
    + rewrite Hg1, Hg2. unfold next_rng. cbn. now rewrite Hg.
    + rewrite Ht1, Ht2. exact Ht.
    + rewrite Hc1, Hh2, map_app. cbn [map]. rewrite Hc2, <- Hd.
      change (history (set_proposal q d)) with (history d).
      change (ImportanceSampler.history (ImportanceSampler.with_proposal q i))
        with (ImportanceSampler.history i).
      now rewrite Hh.
Qed.

(** X6: in any session, with any proposals and sizes (runs that raise
    included), the deterministic-mixture sampler draws what the plain
    importance sampler draws: started alike, the two hold the same points
    in the same runs and leave the generator in the same state.  They
    differ in the weights only. *)
Theorem samplers_draw_the_same_points
    (f : point -> float) (q0 : Proposal)
    (indicator : option (point -> bool)) (g : RNG) (rounds : list round) :
  let d := DeterministicIS_rounds rounds (__init__ f q0 indicator g) in
  let i :=
    ImportanceSampler_rounds rounds
      (ImportanceSampler.__init__ f q0 indicator g) in
  map (map coords) (history d)
  = map (map coords) (ImportanceSampler.history i)
  /\ ImportanceSampler.rng (super d) = ImportanceSampler.rng i
  /\ target d = ImportanceSampler.target i.
Proof.
  cbv zeta.
  destruct (@rounds_same_draws rounds (__init__ f q0 indicator g)
              (ImportanceSampler.__init__ f q0 indicator g)
              eq_refl eq_refl eq_refl) as (Hg & Ht & Hh).
  repeat split; assumption.
Qed.

End Misuse.

(** *** Examples *)

Section MisuseExamples.
#[local] Existing Instance table_libm.

(** The sampler after one run of two points whose caller then emptied
    [self.history] and nothing else. *)
Lemma history_cleared_rows_differ :
  let q := DummyProposal [0%float] 1 in
  let s1 :=
    fst (DeterministicIS.run 2 false (__init__ (fun _ => 1%float) q None 0)) in
  let misused := vset history_view (History.clear (history s1)) s1 in
  ~ same_row_count misused.
Proof. cbv zeta. intros H. vm_compute in H. discriminate. Qed.

(** After the caller's [self.history.clear()]: two more runs of the
    session and the run after them. *)
Lemma inconsistent_ledgers_keep_raising_witness :
  let q := DummyProposal [0%float] 1 in
  let s1 :=
    fst (DeterministicIS.run 2 false (__init__ (fun _ => 1%float) q None 0)) in
  let misused := vset history_view (History.clear (history s1)) s1 in
  snd (DeterministicIS.run 1 true
         (set_proposal q
            (DeterministicIS_rounds [(q, 3, false); (q, 0, true)] misused)))
  = Raise (AssertionError inconsistency_message).
Proof.
  cbv zeta.
  apply (@inconsistent_ledgers_keep_raising table_libm
           [(DummyProposal [0%float] 1, 3, false);
            (DummyProposal [0%float] 1, 0, true)]).
  exact history_cleared_rows_differ.
Defined.

(** After the caller's [self.history.clear()]: the run raises, and the
    three points it drew are in the ledger without weights. *)
Lemma raising_run_writes_no_weight_witness :
  let q := DummyProposal [0%float] 1 in
  let s1 :=
    fst (DeterministicIS.run 2 false (__init__ (fun _ => 1%float) q None 0)) in
  let misused := vset history_view (History.clear (history s1)) s1 in
  history (fst (DeterministicIS.run 3 false misused))
  = history misused ++ [new_rows misused 3]
  /\ Forall (fun r => weight r = None) (new_rows misused 3).
Proof.
  cbv zeta.
  apply (@raising_run_writes_no_weight table_libm 3 false _
           (AssertionError inconsistency_message)).
  now rewrite (run_rows_differ 3 false history_cleared_rows_differ).
Defined.

(** A target whose density is beyond the doubles: [math.exp] raises
    [OverflowError] on the first sample, and the two points drawn stay in
    the ledger without weights. *)
Lemma overflowing_run_writes_no_weight :
  let q := DummyProposal [0%float] 0 in
  let self := __init__ (fun _ => 710%float) q None 0 in
  snd (DeterministicIS.run 2 false self) = Raise OverflowError
  /\ history (fst (DeterministicIS.run 2 false self))
     = [[ {| weight := None; coords := Some [0%float] |};
          {| weight := None; coords := Some [0%float] |} ]].
Proof. cbv zeta. split; vm_compute; reflexivity. Qed.

(** A run of three points after a run of two: the ledgers agree, there
    is one snapshot, and [math.exp] returns. *)
Lemma run_outcome_witness :
  let q := DummyProposal [0%float] 1 in
  let s1 :=
    fst (DeterministicIS.run 2 false (__init__ (fun _ => 1%float) q None 0)) in
  snd (DeterministicIS.run 3 true s1) = Return (Some [0; 0; 0]).
Proof.
  cbv zeta. rewrite (@run_outcome table_libm 3 true) by reflexivity.
  reflexivity.
Defined.

(** The sampler of the scenario below: one run of one point, after which
    the caller empties [self.proposal_history] and nothing else. *)
Lemma tampered_sampler_shape :
  let self :=
    __init__ (fun _ => 1%float) (DummyProposal [0%float] 1) None 0 in
  let s1 := fst (DeterministicIS.run 1 false self) in
  let tampered := vset proposal_history_view [] s1 in
  same_row_count tampered
  /\ length (proposal_history tampered) < length (history tampered)
  /\ no_overflow tampered 1 = true.
Proof. cbv zeta. split; [|split]; vm_compute; reflexivity. Qed.

(** C6, where the code falls short of it: the ledgers agree row for row
    but the snapshot list is shorter than the number of runs.  The run
    raises [IndexError] from inside the loop over the runs; the assertion
    that carries the diagnostic message comes after that loop and is
    never reached. *)
Theorem short_snapshot_list_raises_IndexError :
  let self :=
    __init__ (fun _ => 1%float) (DummyProposal [0%float] 1) None 0 in
  let s1 := fst (DeterministicIS.run 1 false self) in
  let tampered := vset proposal_history_view [] s1 in
  length (proposal_history tampered) <> length (history tampered)
  /\ snd (DeterministicIS.run 1 false tampered) = Raise IndexError
  /\ snd (DeterministicIS.run 1 false tampered)
     <> Raise (AssertionError inconsistency_message).
Proof.
  cbv zeta. destruct tampered_sampler_shape as (Hrows & Hshort & Hsafe).
  cbv zeta in Hrows, Hshort, Hsafe.
  set (tampered := vset proposal_history_view [] _) in *.
  pose proof (run_short_snapshots false Hrows Hshort (le_n 1) Hsafe) as E.
  split; [lia|]. split; [exact E|]. rewrite E. discriminate.
Qed.

(** A new sampler and a run of no points. *)
Lemma run_without_points_raises_NameError_witness :
  snd (DeterministicIS.run 0 false
         (__init__ (fun _ => 1%float) (DummyProposal [0%float] 1) None 0))
  = Raise (UnboundLocalError "i_run").
Proof.
  apply (@run_without_points_raises_NameError table_libm false
           (__init__ (fun _ => 1%float) (DummyProposal [0%float] 1) None 0)).
  reflexivity.
Defined.

(** C10 as stated fails where the ledgers disagree: after the caller's
    [self.history.clear()] a run of no points raises the
    [AssertionError] of the first length check, which is no
    [NameError]. *)
Lemma run_without_points_counterexample :
  let q := DummyProposal [0%float] 1 in
  let s1 :=
    fst (DeterministicIS.run 2 false (__init__ (fun _ => 1%float) q None 0)) in
  let misused := vset history_view (History.clear (history s1)) s1 in
  snd (DeterministicIS.run 0 false misused)
  = Raise (AssertionError inconsistency_message)
  /\ is_NameError (AssertionError inconsistency_message) = false
  /\ snd (DeterministicIS.run 0 false misused)
     <> Raise (UnboundLocalError "i_run").
Proof.
  cbv zeta.
  rewrite (run_rows_differ 0 false history_cleared_rows_differ).
  split; [reflexivity|]. split; [reflexivity | discriminate].
Qed.

End MisuseExamples.

(** ** Weights in closed form *)

Lemma rows_determined (W : point -> float) :
  forall (rows : list sample_row) (xs : list point),
    map coords rows = map Some xs ->
    Forall (fun row => exists x, coords row = Some x
                                 /\ weight row = Some (W x)) rows ->
    rows = map (fun x => {| weight := Some (W x); coords := Some x |}) xs.
Proof.
  induction rows as [|[w c] rows IH]; intros [|x xs] E F;
    simpl in *; try discriminate; [reflexivity|].
  inversion E; subst. inversion F as [|? ? (y & Hy & Hw) F']; subst.
  simpl in *. inversion Hy; subst. f_equal. now apply IH.
Qed.

Lemma single_run_rows (h : History.t sample_row) (N : nat) :
  map (@length _) h = [N] -> h = [concat h].
Proof.
  destruct h as [|r [|r' h]]; simpl; intros E; try discriminate.
  now rewrite app_nil_r.
Qed.



Lemma firstn_map_app {A B} (f : A -> B) (l1 l2 : list A) n :
  length l1 = n ->
  firstn n (map f (l1 ++ l2)) = map f l1.
Proof.
  intros <-.
  rewrite map_app, firstn_app, length_map, Nat.sub_diag, firstn_O, app_nil_r.
  rewrite <- (length_map f l1). apply firstn_all.
Qed.

Section Weights.
Context {L : Libm}.

(** The rows a returning run leaves, when the samples already in the
    ledger are known. *)
Lemma run_rows (N : nat) (trace : bool) (self : t) (xs : list point) :
  consistent self ->
  1 <= N ->
  no_overflow self N = true ->
  map coords (concat (history self)) = map Some xs ->
  concat (history (fst (run N trace self)))
  = map (fun x =>
           {| weight :=
                Some (mixture_weight_of (target self)
                        (map (@length _) (history self) ++ [N])
                        (proposal_history self ++ [proposal self]) x);
              coords := Some x |})
      (xs ++ drawn (super self) N).
Proof.
  intros Hc HN Hsafe Hxs.
  destruct (run_on_consistent trace Hc HN Hsafe)
    as (-> & _ & HW & Hsz & Hco).
  cbn [fst]. apply rows_determined.
  - now rewrite Hco, Hxs, map_app.
  - unfold weights_stored in HW. rewrite Hsz in HW. exact HW.
Qed.

Lemma run_snapshots (N : nat) (trace : bool) (self : t) :
  proposal_history (fst (run N trace self))
  = proposal_history self ++ [proposal self].
Proof. now destruct (run_frame N trace self) as (H & _). Qed.

Lemma run_target (N : nat) (trace : bool) (self : t) :
  target (fst (run N trace self)) = target self.
Proof. now destruct (run_frame N trace self) as (_ & _ & _ & H & _). Qed.

Lemma run_consistent (N : nat) (trace : bool) (self : t) :
  consistent self ->
  1 <= N ->
  no_overflow self N = true ->
  consistent (fst (run N trace self)).
Proof.
  intros Hc HN Hsafe.
  now destruct (run_on_consistent trace Hc HN Hsafe) as (-> & Hc' & _).
Qed.

(** The deterministic-mixture weight over one run and over two. *)
Lemma mixture_weight_of_one target q N x :
  mixture_weight_of target [N] [q] x
  = (c_exp (target x)
     / ((0 + of_nat N * c_exp (evaluate q x)) / of_nat N))%float.
Proof.
  unfold mixture_weight_of, mixture_delta. simpl.
  now rewrite Nat.add_0_r.
Qed.

Lemma mixture_weight_of_two target q1 q2 N1 N2 x :
  mixture_weight_of target [N1; N2] [q1; q2] x
  = (c_exp (target x)
     / ((0 + of_nat N1 * c_exp (evaluate q1 x)
           + of_nat N2 * c_exp (evaluate q2 x))
        / of_nat (N1 + N2)))%float.
Proof.
  unfold mixture_weight_of, mixture_delta. simpl.
  now rewrite Nat.add_0_r.
Qed.

Lemma first_run_rows (N : nat) (trace : bool) (self : t) :
  empty self ->
  1 <= N ->
  no_overflow self N = true ->
  history (fst (DeterministicIS.run N trace self))
  = [map (fun x =>
            {| weight :=
                 Some (c_exp (target self x)
                       / ((0 + of_nat N * c_exp (evaluate (proposal self) x))
                          / of_nat N))%float;
               coords := Some x |})
       (drawn (super self) N)].
Proof.
  intros He HN Hsafe. pose proof (empty_consistent He) as Hc.
  destruct He as (Hh & Ha & Hq).
  pose proof (run_lengths N trace self) as Hsz.
  rewrite Hh in Hsz. simpl in Hsz.
  rewrite (single_run_rows _ Hsz). f_equal.
  rewrite (@run_rows N trace self [] Hc HN Hsafe) by now rewrite Hh.
  rewrite Hh, Hq. simpl app. apply map_ext. intros x.
  now rewrite mixture_weight_of_one.
Qed.

(** ** Two rounds *)

Section TwoRounds.
Variables (self : t) (q2 : Proposal) (N1 N2 : nat) (trace1 trace2 : bool).
Hypothesis Hempty : empty self.
Hypothesis HN1 : 1 <= N1.
Hypothesis HN2 : 1 <= N2.

Let s1 := fst (DeterministicIS.run N1 trace1 self).
Let s2 := fst (DeterministicIS.run N2 trace2 (set_proposal q2 s1)).
Let drawn1 := drawn (super self) N1.
Let drawn2 := drawn (super (set_proposal q2 s1)) N2.

Hypothesis Hsafe1 : no_overflow self N1 = true.
Hypothesis Hsafe2 : no_overflow (set_proposal q2 s1) N2 = true.

Lemma first_round_rows :
  concat (history s1)
  = map (fun x =>
           {| weight :=
                Some (c_exp (target self x)
                      / ((0 + of_nat N1 * c_exp (evaluate (proposal self) x))
                         / of_nat N1))%float;
              coords := Some x |})
      drawn1.
Proof.
  unfold s1. rewrite first_run_rows by assumption. simpl.
  now rewrite app_nil_r.
Qed.

Lemma second_round_rows :
  concat (history s2)
  = map (fun x =>
           {| weight :=
                Some (c_exp (target self x)
                      / ((0 + of_nat N1 * c_exp (evaluate (proposal self) x)
                            + of_nat N2 * c_exp (evaluate q2 x))
                         / of_nat (N1 + N2)))%float;
              coords := Some x |})
      (drawn1 ++ drawn2).
Proof.
  pose proof (empty_consistent Hempty) as Hc.
  pose proof (run_consistent trace1 Hc HN1 Hsafe1) as Hc1. fold s1 in Hc1.
  pose proof (consistent_set_proposal q2 Hc1) as Hc1'.
  unfold s2.
  rewrite (@run_rows N2 trace2 (set_proposal q2 s1) drawn1 Hc1' HN2 Hsafe2).
  - change (history (set_proposal q2 s1)) with (history s1).
    change (proposal_history (set_proposal q2 s1))
      with (proposal_history s1).
    change (target (set_proposal q2 s1)) with (target s1).
    change (proposal (set_proposal q2 s1)) with q2.
    unfold s1. rewrite run_target, run_snapshots.
    rewrite first_run_rows by assumption.
    destruct Hempty as (_ & _ & ->). simpl map at 2.
    rewrite length_map. unfold drawn1. rewrite length_drawn.
    apply map_ext. intros x. simpl app.
    now rewrite mixture_weight_of_two.
  - change (history (set_proposal q2 s1)) with (history s1).
    rewrite first_round_rows, map_map. reflexivity.
Qed.

End TwoRounds.

(** ** The deterministic-mixture weight formula *)



(** *** Constant densities *)




(** C4, as the code has it: the second round overwrites the weight of
    every round-1 sample.  Where [math.exp] does not raise, a round-1
    sample [x] holds [exp(T) / ((0. + N1*exp(Q1)) / N1)] before the
    second round and
    [exp(T) / (((0. + N1*exp(Q1)) + N2*exp(Q2)) / (N1 + N2))] after it,
    with [T = log_target(x)] and [Q1], [Q2] the log-densities of the two
    proposals at [x], each computed in doubles: the second proposal
    enters every round-1 weight through [N2*exp(Q2)], and the samples
    stay where they were. *)
Theorem retroactive_correction
    (self : t) (q2 : Proposal) (N1 N2 : nat) (trace1 trace2 : bool) :
  empty self ->
  1 <= N1 ->
  1 <= N2 ->
  let s1 := fst (DeterministicIS.run N1 trace1 self) in
  let s2 := fst (DeterministicIS.run N2 trace2 (set_proposal q2 s1)) in
  let round1 := drawn (super self) N1 in
  let before := map weight (concat (history s1)) in
  let after := map weight (firstn N1 (concat (history s2))) in
  no_overflow self N1 = true ->
  no_overflow (set_proposal q2 s1) N2 = true ->
  map coords (concat (history s1)) = map Some round1
  /\ map coords (firstn N1 (concat (history s2))) = map Some round1
  /\ before
     = map (fun x =>
              Some (c_exp (target self x)
                    / ((0 + of_nat N1 * c_exp (evaluate (proposal self) x))
                       / of_nat N1))%float)
         round1
  /\ after
     = map (fun x =>
              Some (c_exp (target self x)
                    / ((0 + of_nat N1 * c_exp (evaluate (proposal self) x)
                          + of_nat N2 * c_exp (evaluate q2 x))
                       / of_nat (N1 + N2)))%float)
         round1.
Proof.
  intros He H1 H2. cbv zeta. intros Hsafe1 Hsafe2.
  rewrite (first_round_rows trace1 He H1 Hsafe1).
  rewrite (second_round_rows q2 trace1 trace2 He H1 H2 Hsafe1 Hsafe2).
  rewrite !firstn_map_app by apply length_drawn.
  rewrite !map_map.
  repeat split; reflexivity.
Qed.

End Weights.

(** ** The weight formula on concrete samplers *)

Section WeightExamples.
#[local] Existing Instance table_libm.


(** The numbers of the scenario above: [exp(1.) / ((2*exp(1.)) / 2)]
    after the first run, and after the second, for all five rows,
    [exp(1.) / ((2*exp(1.) + 3*exp(2.)) / 5)]. *)
Lemma second_run_rewrites_the_column :
  let q1 := DummyProposal [0%float] 1 in
  let q2 := DummyProposal [0%float] 2 in
  let s1 :=
    fst (DeterministicIS.run 2 false (__init__ (fun _ => 1%float) q1 None 0)) in
  let s2 := fst (DeterministicIS.run 3 true (set_proposal q2 s1)) in
  map weight (concat (history s1)) = repeat (Some 1%float) 2
  /\ map weight (concat (history s2))
     = repeat (Some 0.4923757832849298%float) 5.
Proof. cbv zeta. split; vm_compute; reflexivity. Qed.





(** The two values of the scenario above, as doubles. *)
Lemma constant_densities_values :
  (c_exp 1 / ((0 + of_nat 50 * c_exp 1) / of_nat 50) = 1
   /\ c_exp 1 / ((0 + of_nat 50 * c_exp 1 + of_nat 50 * c_exp 2)
                 / of_nat (50 + 50))
      = 0.5378828427399902)%float.
Proof. split; vm_compute; reflexivity. Qed.


(** One point, then two more under a proposal with another density. *)
Lemma retroactive_correction_witness :
  let self := __init__ (fun _ => 0%float) (DummyProposal [0%float] 0) None 0 in
  let q2 := DummyProposal [1%float] 1 in
  let s1 := fst (DeterministicIS.run 1 false self) in
  let s2 := fst (DeterministicIS.run 2 false (set_proposal q2 s1)) in
  let round1 := drawn (super self) 1 in
  map coords (concat (history s1)) = map Some round1
  /\ map coords (firstn 1 (concat (history s2))) = map Some round1
  /\ map weight (concat (history s1))
     = map (fun x =>
              Some (c_exp (target self x)
                    / ((0 + of_nat 1 * c_exp (evaluate (proposal self) x))
                       / of_nat 1))%float)
         round1
  /\ map weight (firstn 1 (concat (history s2)))
     = map (fun x =>
              Some (c_exp (target self x)
                    / ((0 + of_nat 1 * c_exp (evaluate (proposal self) x)
                          + of_nat 2 * c_exp (evaluate q2 x))
                       / of_nat (1 + 2)))%float)
         round1.
Proof.
  cbv zeta.
  apply (@retroactive_correction table_libm
           (__init__ (fun _ => 0%float) (DummyProposal [0%float] 0) None 0)
           (DummyProposal [1%float] 1) 1 2 false false).
  - apply init_empty.
  - lia.
  - lia.
  - reflexivity.
  - vm_compute. reflexivity.
Defined.

(** The numbers of the scenario above: the weight of the round-1 sample
    goes from [1.] to [exp(0.) / ((1. + 2*exp(1.)) / 3)]. *)
Lemma retroactive_correction_values :
  let self := __init__ (fun _ => 0%float) (DummyProposal [0%float] 0) None 0 in
  let q2 := DummyProposal [1%float] 1 in
  let s1 := fst (DeterministicIS.run 1 false self) in
  let s2 := fst (DeterministicIS.run 2 false (set_proposal q2 s1)) in
  map weight (concat (history s1)) = [Some 1%float]
  /\ map weight (firstn 1 (concat (history s2)))
     = [Some 0.4660872104908908%float].
Proof. cbv zeta. split; vm_compute; reflexivity. Qed.

(** C4 as stated fails in doubles, in both directions.  Proposals with
    log-densities [0.] and [1e-17] evaluate differently, and the round-1
    weight is [1.] before and after the second round.  Proposals that
    both evaluate to [0.3] evaluate identically, and with one point in
    the first round and two in the second the round-1 weight goes from
    [0.7408182206817179] to [0.740818220681718]. *)
Lemma retroactive_correction_counterexample :
  let unchanged :=
    __init__ (fun _ => 0%float) (DummyProposal [0%float] 0) None 0 in
  let u2 := DummyProposal [0%float] 1e-17 in
  let u_s1 := fst (DeterministicIS.run 1 false unchanged) in
  let u_s2 := fst (DeterministicIS.run 1 false (set_proposal u2 u_s1)) in
  let changed :=
    __init__ (fun _ => 0%float) (DummyProposal [0%float] 0.3) None 0 in
  let c2 := DummyProposal [0%float] 0.3 in
  let c_s1 := fst (DeterministicIS.run 1 false changed) in
  let c_s2 := fst (DeterministicIS.run 2 false (set_proposal c2 c_s1)) in
  (evaluate (proposal unchanged) [0%float] <> evaluate u2 [0%float]
   /\ map weight (concat (history u_s1)) = [Some 1%float]
   /\ map weight (firstn 1 (concat (history u_s2))) = [Some 1%float])
  /\ ((forall x, evaluate (proposal changed) x = evaluate c2 x)
      /\ map weight (concat (history c_s1)) = [Some 0.7408182206817179%float]
      /\ map weight (firstn 1 (concat (history c_s2)))
         = [Some 0.740818220681718%float]
      /\ map weight (concat (history c_s1))
         <> map weight (firstn 1 (concat (history c_s2)))).
Proof.
  cbv zeta. split; [split; [|split] | split; [|split; [|split]]];
    try (vm_compute; reflexivity).
  - simpl. discriminate.
  - intros E. vm_compute in E. discriminate.
Qed.

End WeightExamples.

(** ** The plain importance sampler *)


Section Plain.
Context {L : Libm}.



(** X16: the ledger of [ImportanceSampler] only grows.  Over any session
    of proposal assignments and runs, runs that raise included, what the
    ledger held stays as it was, weights included, and every round
    appends one run of the size asked for. *)
Theorem importance_sampler_only_appends
    (rounds : list round) (self : ImportanceSampler.t) :
  exists runs,
    ImportanceSampler.history (ImportanceSampler_rounds rounds self)
    = ImportanceSampler.history self ++ runs
    /\ map (@length _) runs = sizes_of rounds.
Proof.
  revert self.
  induction rounds as [|[[q N] trace] rounds IH]; intros self.
  - exists []. now rewrite app_nil_r.
  - rewrite ImportanceSampler_rounds_cons.
    destruct (IH (fst (ImportanceSampler.run N trace
                         (ImportanceSampler.with_proposal q self))))
      as (runs & -> & Hsz).
    destruct (ImportanceSampler_run_frame N trace
                (ImportanceSampler.with_proposal q self))
      as (_ & _ & _ & new_run & -> & Hc & _).
    exists (new_run :: runs). split.
    + now rewrite <- app_assoc.
    + cbn [map sizes_of]. f_equal; [|exact Hsz].
      rewrite <- (length_map coords), Hc, length_map.
      apply length_drawn.
Qed.

(** ** No stored weight is negative *)


(** ** A run after [clear] *)

(** X5: [clear()] makes the sampler new again, from any state, a state
    of disagreeing ledgers included.  The next run of [N >= 1] points in
    which [math.exp] does not raise returns and leaves one run, one
    snapshot and one run of auxiliary rows; the weights are
    [exp(T) / ((0. + N*exp(Q)) / N)] in doubles, with [T] and [Q] the
    log-densities of target and proposal: nothing of the earlier runs
    enters them. *)
Theorem clear_then_run_is_a_first_run
    (N : nat) (trace : bool) (self : t) :
  1 <= N ->
  no_overflow (fst (clear self)) N = true ->
  let cleared := fst (clear self) in
  let self' := fst (DeterministicIS.run N trace cleared) in
  snd (DeterministicIS.run N trace cleared)
  = Return (if trace then Some (origin (super cleared) N) else None)
  /\ history self'
     = [map (fun x =>
               {| weight :=
                    Some (c_exp (target self x)
                          / ((0 + of_nat N * c_exp (evaluate (proposal self) x))
                             / of_nat N))%float;
                  coords := Some x |})
          (drawn (super cleared) N)]
  /\ proposal_history self' = [_cp (proposal self)]
  /\ map (@length _) (_deltas_targets_evaluated self') = [N].
Proof.
  intros HN Hsafe. cbv zeta.
  pose proof (clear_empty self) as He.
  pose proof (empty_consistent He) as Hc.
  split; [|split; [|split]].
  - now destruct (run_on_consistent trace Hc HN Hsafe) as (-> & _).
  - exact (first_run_rows trace He HN Hsafe).
  - rewrite run_snapshots. now destruct He as (_ & _ & ->).
  - destruct (run_frame N trace (fst (clear self))) as (_ & -> & _).
    now destruct He as (_ & -> & _).
Qed.

End Plain.

(** *** Examples *)

Section PlainExamples.
#[local] Existing Instance table_libm.


(** The ledger of the scenario above: every point is outside the
    support and has weight [0.]. *)
Lemma outside_the_support_values :
  let q := DummyProposal [0%float] 1 in
  let self :=
    ImportanceSampler.with_proposal q
      (ImportanceSampler_rounds [(q, 3, false)]
         (ImportanceSampler.__init__ (fun _ => 1%float) q
            (Some (fun _ => false)) 0)) in
  map (map weight)
    (ImportanceSampler.history (fst (ImportanceSampler.run 2 true self)))
  = [repeat (Some 0%float) 3; repeat (Some 0%float) 2].
Proof. cbv zeta. vm_compute. reflexivity. Qed.




(** A run of two points after [clear()] on a sampler whose caller had
    emptied [self.history] alone. *)
Lemma clear_then_run_is_a_first_run_witness :
  let q := DummyProposal [0%float] 1 in
  let s1 :=
    fst (DeterministicIS.run 2 false (__init__ (fun _ => 1%float) q None 0)) in
  let misused := vset history_view (History.clear (history s1)) s1 in
  map (map weight)
    (history (fst (DeterministicIS.run 2 true (fst (clear misused)))))
  = [[Some 1%float; Some 1%float]].
Proof.
  cbv zeta.
  destruct (@clear_then_run_is_a_first_run table_libm 2 true
              (vset history_view
                 (History.clear
                    (history
                       (fst (DeterministicIS.run 2 false
                               (__init__ (fun _ => 1%float)
                                  (DummyProposal [0%float] 1) None 0)))))
                 (fst (DeterministicIS.run 2 false
                         (__init__ (fun _ => 1%float)
                            (DummyProposal [0%float] 1) None 0)))))
    as (_ & E & _).
  - lia.
  - reflexivity.
  - rewrite E. vm_compute. reflexivity.
Defined.

End PlainExamples.

(** ** The moment estimators *)

Lemma calculate_expectation_fold {V} `{Array V}
    (samples : list weighted_sample) (f : point -> V) :
  calculate_expectation samples f
  = truediv (snd (fold_left (expectation_step f) samples
                    (0%float, inl 0%float)))
      (fst (fold_left (expectation_step f) samples (0%float, inl 0%float))).
Proof.
  unfold calculate_expectation.
  change (fun (acc : float * (float + V)) (point : weighted_sample) =>
            let (normalization, out) := acc in
            ((normalization + fst point)%float,
             iadd out (scale (fst point) (f (snd point)))))
    with (expectation_step f).
  now destruct (fold_left (expectation_step f) samples (0%float, inl 0%float)).
Qed.

(** Once [out] is a numpy value it stays one: the loop adds the weights
    to [normalization] and the weighted values to [out]. *)
Lemma expectation_fold_inr {V} `{Array V} (f : point -> V)
    (samples : list weighted_sample) :
  forall n u,
    fold_left (expectation_step f) samples (n, inr u)
    = (fold_left PrimFloat.add (map fst samples) n,
       inr (fold_left plus
              (map (fun s => scale (fst s) (f (snd s))) samples) u)).
Proof.
  induction samples as [|s samples IH]; intros n u; [reflexivity|].
  simpl. apply IH.
Qed.

Lemma calculate_expectation_cons {V} `{Array V}
    (s : weighted_sample) (samples : list weighted_sample) (f : point -> V) :
  calculate_expectation (s :: samples) f
  = Return
      (divide
         (fold_left plus
            (map (fun s => scale (fst s) (f (snd s))) samples)
            (shift 0%float (scale (fst s) (f (snd s)))))
         (fold_left PrimFloat.add (map fst samples) (0 + fst s)%float)).
Proof.
  rewrite calculate_expectation_fold.
  change (fold_left (expectation_step f) (s :: samples) (0%float, inl 0%float))
    with (fold_left (expectation_step f) samples
            ((0 + fst s)%float,
             inr (shift 0%float (scale (fst s) (f (snd s)))))).
  now rewrite expectation_fold_inr.
Qed.

Lemma calculate_expectation_returns {V} `{Array V}
    (samples : list weighted_sample) (f : point -> V) :
  samples <> [] -> exists v, calculate_expectation samples f = Return v.
Proof.
  destruct samples as [|s samples]; [contradiction|]. intros _.
  rewrite calculate_expectation_cons. eauto.
Qed.

(** *** Weights that are all zero *)

Lemma summation_zeros (a : list float) (s : float) :
  summation a s ->
  Forall (fun x => is_zero x = true) a ->
  is_zero s = true.
Proof.
  induction 1 as [x | a a1 a2 s1 s2 Hp _ IH1 _ IH2]; intros Hz.
  - now inversion Hz.
  - assert (Hz' : Forall (fun x => is_zero x = true) (a1 ++ a2))
      by (eapply Permutation_Forall; eassumption).
    apply Forall_app in Hz'. destruct Hz' as [Hz1 Hz2].
    apply add_zeros; auto.
Qed.

Lemma fold_add_zeros (w : list float) :
  Forall (fun x => is_zero x = true) w ->
  forall n, is_zero n = true ->
            is_zero (fold_left PrimFloat.add w n) = true.
Proof.
  induction 1 as [|x w Hx _ IH]; intros n Hn; simpl; [exact Hn|].
  apply IH. now apply add_zeros.
Qed.

Lemma div_zero_zero (a b : float) :
  is_zero a = true -> is_zero b = true -> (a / b)%float = nan.
Proof.
  rewrite !is_zero_spec. intros Ha Hb. apply Prim2SF_inj.
  rewrite div_spec. unfold SF64div.
  destruct (Prim2SF a) as [sa| | |]; try contradiction.
  destruct (Prim2SF b) as [sb| | |]; try contradiction.
  reflexivity.
Qed.

Section Moments.
Context {NP : Numpy}.

Lemma np_sum_zeros (w : list float) :
  Forall (fun x => is_zero x = true) w -> is_zero (np_sum w) = true.
Proof.
  intros Hz. destruct w as [|x w].
  - now rewrite np_sum_empty.
  - apply (summation_zeros (a := x :: w)); [|exact Hz].
    now apply np_sum_summation.
Qed.

Lemma calculate_mean_zero_weights (samples : list weighted_sample) :
  Forall (fun s => is_zero (fst s) = true) samples ->
  calculate_mean samples = Raise ZeroDivisionError.
Proof.
  intros HZ. unfold calculate_mean, np_average.
  rewrite np_sum_zeros; [reflexivity|].
  apply Forall_forall. intros x Hx. apply in_map_iff in Hx.
  destruct Hx as (s & <- & Hs). rewrite Forall_forall in HZ. now apply HZ.
Qed.

Lemma calculate_expectation_nan (f : point -> float)
    (samples : list weighted_sample) :
  samples <> [] ->
  Forall (fun s => is_zero (fst s) = true) samples ->
  (forall x, is_finite (f x) = true) ->
  calculate_expectation samples f = Return nan.
Proof.
  intros Hne HZ Hf.
  destruct samples as [|[w x] samples]; [contradiction|].
  inversion HZ as [|? ? Hw HZ']; subst. simpl in Hw.
  rewrite calculate_expectation_cons. cbn [fst snd].
  cbn [shift scale plus divide Array_float]. f_equal.
  apply div_zero_zero.
  - apply fold_add_zeros.
    + apply Forall_forall. intros v Hv. apply in_map_iff in Hv.
      destruct Hv as ([w' x'] & <- & Hs). rewrite Forall_forall in HZ'.
      apply mul_zero_finite; [exact (HZ' _ Hs) | apply Hf].
    + apply add_zeros; [reflexivity|]. now apply mul_zero_finite.
  - apply fold_add_zeros.
    + apply Forall_forall. intros v Hv. apply in_map_iff in Hv.
      destruct Hv as (s & <- & Hs). rewrite Forall_forall in HZ'.
      now apply HZ'.
    + now apply add_zeros.
Qed.

(** C8, as the code has it: no estimator checks for zero weights.  With
    all weights zero [calculate_mean], and with it
    [calculate_covariance], raise the [ZeroDivisionError] of
    [numpy.average]; [calculate_expectation] raises it only for an empty
    sample array, and on every other array returns the quotient by the
    zero normalization without raising: [nan] for a finite [f]. *)
Theorem zero_weight_estimators (samples : list weighted_sample) :
  Forall (fun s => is_zero (fst s) = true) samples ->
  calculate_mean samples = Raise ZeroDivisionError
  /\ calculate_covariance samples = Raise ZeroDivisionError
  /\ (samples = [] ->
      forall f : point -> float,
        calculate_expectation samples f = Raise ZeroDivisionError)
  /\ (samples <> [] ->
      forall f : point -> float,
        (exists v, calculate_expectation samples f = Return v)
        /\ ((forall x, is_finite (f x) = true) ->
            calculate_expectation samples f = Return nan)).
Proof.
  intros HZ. split; [|split; [|split]].
  - now apply calculate_mean_zero_weights.
  - unfold calculate_covariance.
    now rewrite calculate_mean_zero_weights.
  - intros -> f. reflexivity.
  - intros Hne f. split.
    + now apply calculate_expectation_returns.
    + intros Hf. now apply calculate_expectation_nan.
Qed.

(** *** When the covariance estimator raises *)

Lemma covariance_returns (samples : list weighted_sample) :
  is_zero (np_sum (map fst samples)) = false ->
  (exists mean, calculate_mean samples = Return mean)
  /\ (exists m, calculate_covariance samples = Return m).
Proof.
  intros Hz.
  assert (Hne : samples <> []).
  { intros ->. simpl in Hz. rewrite np_sum_empty in Hz. discriminate. }
  assert (Hmean : exists mean, calculate_mean samples = Return mean).
  { unfold calculate_mean, np_average. rewrite Hz. eauto. }
  split; [exact Hmean|].
  destruct Hmean as (mean & Hmean).
  unfold calculate_covariance. rewrite Hmean.
  destruct (@calculate_expectation_returns _ _ samples
              (fun x => outer (zip_with PrimFloat.sub x mean)
                          (zip_with PrimFloat.sub x mean))
              Hne) as (v & ->).
  eauto.
Qed.

(** X14: when the covariance estimator raises.  [calculate_covariance]
    raises exactly when [calculate_mean] does, that is when the sum of
    the weights numpy computes is zero: on the empty array, on weights
    that are all zero and on weights that cancel.  The error is the
    [ZeroDivisionError] of [numpy.average].  In every other case both
    return, whatever the samples hold. *)
Theorem covariance_raises_on_zero_weight_sum
    (samples : list weighted_sample) :
  if is_zero (np_sum (map fst samples)) then
    calculate_mean samples = Raise ZeroDivisionError
    /\ calculate_covariance samples = Raise ZeroDivisionError
  else
    (exists mean, calculate_mean samples = Return mean)
    /\ (exists m, calculate_covariance samples = Return m).
Proof.
  destruct (is_zero (np_sum (map fst samples))) eqn:Hz.
  - assert (E : calculate_mean samples = Raise ZeroDivisionError).
    { unfold calculate_mean, np_average. now rewrite Hz. }
    split; [exact E|]. unfold calculate_covariance. now rewrite E.
  - now apply covariance_returns.
Qed.

End Moments.

(** *** Symmetry *)

Lemma nth_error_zip_with {A B C} (f : A -> B -> C) (u : list A) :
  forall (v : list B) i,
    nth_error (zip_with f u v) i
    = match nth_error u i, nth_error v i with
      | Some a, Some b => Some (f a b)
      | _, _ => None
      end.
Proof.
  induction u as [|a u IH]; intros [|b v] [|i]; simpl; try reflexivity.
  - now destruct (nth_error u i).
  - apply IH.
Qed.

Lemma entry_map (g : float -> float) (m : list (list float)) i j :
  entry (map (map g) m) i j = option_map g (entry m i j).
Proof.
  unfold entry. rewrite nth_error_map.
  destruct (nth_error m i) as [row|]; simpl; [|reflexivity].
  apply nth_error_map.
Qed.

Lemma entry_zip_with (g : float -> float -> float)
    (m1 m2 : list (list float)) i j :
  entry (zip_with (zip_with g) m1 m2) i j
  = match entry m1 i j, entry m2 i j with
    | Some a, Some b => Some (g a b)
    | _, _ => None
    end.
Proof.
  unfold entry. rewrite nth_error_zip_with.
  destruct (nth_error m1 i) as [r1|], (nth_error m2 i) as [r2|];
    try reflexivity.
  - apply nth_error_zip_with.
  - now destruct (nth_error r1 j).
Qed.

Lemma entry_outer (u v : point) i j :
  entry (outer u v) i j
  = match nth_error u i, nth_error v j with
    | Some a, Some b => Some (a * b)%float
    | _, _ => None
    end.
Proof.
  unfold entry, outer. rewrite nth_error_map.
  destruct (nth_error u i) as [a|]; simpl; [|reflexivity].
  rewrite nth_error_map. now destruct (nth_error v j).
Qed.

Lemma symmetric_outer (u : point) : symmetric (outer u u).
Proof.
  intros i j. rewrite !entry_outer.
  destruct (nth_error u i) as [a|], (nth_error u j) as [b|];
    try reflexivity.
  now rewrite mul_comm.
Qed.

Lemma symmetric_map (g : float -> float) (m : list (list float)) :
  symmetric m -> symmetric (map (map g) m).
Proof. intros H i j. now rewrite !entry_map, H. Qed.

Lemma symmetric_zip_with (g : float -> float -> float)
    (m1 m2 : list (list float)) :
  symmetric m1 -> symmetric m2 -> symmetric (zip_with (zip_with g) m1 m2).
Proof. intros H1 H2 i j. now rewrite !entry_zip_with, H1, H2. Qed.

Lemma symmetric_scale w (m : list (list float)) :
  symmetric m -> symmetric (scale w m).
Proof. apply symmetric_map. Qed.

Lemma symmetric_shift s (m : list (list float)) :
  symmetric m -> symmetric (shift s m).
Proof. apply symmetric_map. Qed.

Lemma symmetric_plus (m1 m2 : list (list float)) :
  symmetric m1 -> symmetric m2 -> symmetric (plus m1 m2).
Proof. apply symmetric_zip_with. Qed.

Lemma symmetric_divide (m : list (list float)) s :
  symmetric m -> symmetric (divide m s).
Proof. apply (symmetric_map (fun x => (x / s)%float)). Qed.

Lemma symmetric_sum (ms : list (list (list float))) :
  Forall symmetric ms ->
  forall m, symmetric m -> symmetric (fold_left plus ms m).
Proof.
  induction 1 as [|m' ms Hm' _ IH]; intros m Hm; simpl; [exact Hm|].
  apply IH. now apply symmetric_plus.
Qed.

(** The expectation of symmetric matrices is a symmetric matrix. *)
Lemma symmetric_expectation (f : point -> list (list float))
    (samples : list weighted_sample) m :
  (forall x, symmetric (f x)) ->
  calculate_expectation samples f = Return m ->
  symmetric m.
Proof.
  intros Hf.
  destruct samples as [|[w x] samples]; [discriminate|].
  rewrite calculate_expectation_cons. cbn [fst snd].
  intros E. injection E as <-.
  apply symmetric_divide, symmetric_sum.
  - apply Forall_forall. intros m' Hm'. apply in_map_iff in Hm'.
    destruct Hm' as (s & <- & _). apply symmetric_scale, Hf.
  - apply symmetric_shift, symmetric_scale, Hf.
Qed.

(** X13: the covariance matrix is symmetric.  Whatever the samples hold,
    [inf] and [nan] included, in a matrix returned by
    [calculate_covariance] the entries [m[i][j]] and [m[j][i]] hold the
    same double, or are both [nan]. *)
Theorem covariance_is_symmetric {NP : Numpy}
    (samples : list weighted_sample) (m : list (list float)) :
  calculate_covariance samples = Return m -> symmetric m.
Proof.
  unfold calculate_covariance.
  destruct (calculate_mean samples) as [mean|e]; [|discriminate].
  destruct (calculate_expectation samples _) as [v|e] eqn:E;
    [|discriminate].
  intros H. injection H as <-.
  apply symmetric_scale.
  refine (symmetric_expectation _ samples _ E).
  intros x. apply symmetric_outer.
Qed.

(** *** Examples *)

Section MomentExamples.
#[local] Existing Instance sequential_numpy.

(** Two samples of weight zero, one of them [-0.]. *)
Lemma zero_weight_estimators_witness :
  calculate_mean [(0%float, [1%float; 2%float]); ((-0)%float, [3%float; 4%float])]
  = Raise ZeroDivisionError.
Proof.
  apply (@zero_weight_estimators sequential_numpy
           [(0%float, [1%float; 2%float]); ((-0)%float, [3%float; 4%float])]).
  repeat constructor.
Defined.

(** C8 as stated fails for [calculate_expectation]: on the one-row array
    [[0., 0.]] with [f = 1.] it raises nothing and returns [nan]. *)
Lemma zero_weight_expectation_counterexample :
  calculate_expectation [(0%float, [0%float])] (fun _ => 1%float)
  = Return nan.
Proof. vm_compute. reflexivity. Qed.

(** Two samples in two dimensions, of weights 1 and 3. *)
Lemma covariance_is_symmetric_witness :
  exists m,
    calculate_covariance
      [(1%float, [1%float; 2%float]); (3%float, [3%float; 4%float])]
    = Return m
    /\ symmetric m.
Proof.
  destruct (@covariance_returns sequential_numpy
              [(1%float, [1%float; 2%float]); (3%float, [3%float; 4%float])])
    as (_ & m & Hm); [reflexivity|].
  exists m. split; [exact Hm|].
  exact (@covariance_is_symmetric sequential_numpy _ m Hm).
Defined.

(** The matrix of the scenario above. *)
Lemma covariance_of_two_samples :
  calculate_covariance
    [(1%float, [1%float; 2%float]); (3%float, [3%float; 4%float])]
  = Return [[2%float; 2%float]; [2%float; 2%float]].
Proof. vm_compute. reflexivity. Qed.

(** Weights that cancel: the sum is zero and both estimators raise. *)
Lemma covariance_raises_on_cancelling_weights :
  calculate_mean [(1%float, [1%float]); ((-1)%float, [2%float])]
  = Raise ZeroDivisionError
  /\ calculate_covariance [(1%float, [1%float]); ((-1)%float, [2%float])]
     = Raise ZeroDivisionError.
Proof. split; vm_compute; reflexivity. Qed.

End MomentExamples.
